(** * Count Occurrences: a shallow embedding of [occurrences.py]

    The development follows the source file top to bottom: the module-level
    regular expression [wordfinder], the class [DocumentAnalyser] with its
    private helpers, [find_duplicates], [display_results], and the
    module-level function [load_file].

    Modelling choices.
    - A Python [str] is a Rocq [string]; each character is read as the code
      point of the same number (U+0000 .. U+00FF).
    - A Python [int] is a [Z].
    - A Python [dict] keeps its keys in insertion order, and the program
      depends on that order ([sorted] is stable), so a dict is an
      association list with the operations [dict_get], [dict_contains] and
      [dict_set] written out.
    - A Python [set] is used through [add] and [in] only: a [gset string].
    - [self] is threaded explicitly: a method that mutates the object
      returns the new object.
    - An exception is a value of [exn]; code that can raise returns a
      [result]. *)

From Stdlib Require Import String Ascii List ZArith NArith Lia Bool Sorted.
From Stdlib Require Import Permutation DecimalString.
From stdpp Require Import gmap strings.
Import ListNotations.

Local Open Scope Z_scope.

(** ** Exceptions *)

Inductive exn : Type :=
| NameError (name : string)
| UnboundLocalError (name : string).

Inductive result (A : Type) : Type :=
| Ok (a : A)
| Raise (e : exn).

Arguments Ok {A} a.
Arguments Raise {A} e.

Definition bind {A B : Type} (r : result A) (k : A -> result B) : result B :=
  match r with
  | Ok a => k a
  | Raise e => Raise e
  end.

(** ** The regular expression [wordfinder]

    [re.compile(r'\b([A-Za-z][\w\-\.]{2,60})\b')], on [str] input, so the
    classes [\w] and [\b] are the Unicode ones. *)

Module Re.

Definition code (c : ascii) : N := N_of_ascii c.

Definition between (lo hi : N) (c : ascii) : bool :=
  ((lo <=? code c) && (code c <=? hi))%N.

(** [[A-Za-z]] *)
Definition ascii_letter (c : ascii) : bool :=
  between 65 90 c || between 97 122 c.

Definition ascii_digit (c : ascii) : bool := between 48 57 c.

(** The code points from U+0080 to U+00FF that [str.isalnum] accepts:
    U+00AA, U+00B2, U+00B3, U+00B5, U+00B9, U+00BA, U+00BC..U+00BE,
    U+00C0..U+00D6, U+00D8..U+00F6, U+00F8..U+00FF. *)
Definition latin1_alnum (c : ascii) : bool :=
  (code c =? 170)%N || between 178 179 c || (code c =? 181)%N
  || between 185 186 c || between 188 190 c
  || between 192 214 c || between 216 246 c || between 248 255 c.

(** [\w]: alphanumeric or underscore. *)
Definition word_char (c : ascii) : bool :=
  ascii_letter c || ascii_digit c || (code c =? 95)%N || latin1_alnum c.

(** [[\w\-\.]] *)
Definition body_char (c : ascii) : bool :=
  word_char c || (code c =? 45)%N || (code c =? 46)%N.

Definition is_word (o : option ascii) : bool :=
  match o with
  | Some c => word_char c
  | None => false
  end.

(** [\b] between the character before a position and the one after it;
    outside the string counts as a non-word character. *)
Definition boundary (before after : option ascii) : bool :=
  xorb (is_word before) (is_word after).

(** Greedy part of [{2,60}]: how many of the first [n] characters of [s]
    are body characters in a row. *)
Fixpoint run_length (n : nat) (s : list ascii) : nat :=
  match n, s with
  | S n', c :: s' => if body_char c then S (run_length n' s') else 0%nat
  | _, _ => 0%nat
  end.

(** Backtracking part of [{2,60}] followed by [\b]: starting from [k]
    repetitions and giving one back at a time, the first count of at least
    2 after which the closing [\b] holds. [rest] is the text after the
    first letter. *)
Fixpoint backtrack (rest : list ascii) (k : nat) : option nat :=
  if (2 <=? k)%nat
     && boundary (nth_error rest (k - 1)) (nth_error rest k)
  then Some k
  else match k with
       | O => None
       | S k' => backtrack rest k'
       end.

(** An attempt to match the whole pattern at the head of [s], where [prev]
    is the character before it in the text. The result is the length of
    the match. *)
Definition match_at (prev : option ascii) (s : list ascii) : option nat :=
  match s with
  | [] => None
  | c :: rest =>
      if boundary prev (Some c) && ascii_letter c
      then option_map S (backtrack rest (run_length 60 rest))
      else None
  end.

(** [finditer]: attempts at every position from left to right; after a
    match the search resumes at its end. [skip] counts the characters of
    the last match still to be passed over. *)
Fixpoint scan (prev : option ascii) (s : list ascii) (skip : nat)
  : list string :=
  match s with
  | [] => []
  | c :: s' =>
      match skip with
      | S k => scan (Some c) s' k
      | O =>
          match match_at prev s with
          | Some n =>
              string_of_list_ascii (firstn n s) :: scan (Some c) s' (n - 1)
          | None => scan (Some c) s' 0
          end
      end
  end.

(** [[m.group(0) for m in wordfinder.finditer(text)]] *)
Definition finditer (text : string) : list string :=
  scan None (list_ascii_of_string text) 0.

End Re.

Definition wordfinder_finditer : string -> list string := Re.finditer.

(** ** Python dicts, in insertion order *)

Definition dict : Type := list (string * Z).

(** [d.get(k)], [None] when [k] is not a key *)
Fixpoint dict_get (d : dict) (k : string) : option Z :=
  match d with
  | [] => None
  | (k', v) :: d' => if String.eqb k' k then Some v else dict_get d' k
  end.

(** [k in d] *)
Definition dict_contains (d : dict) (k : string) : bool :=
  match dict_get d k with
  | Some _ => true
  | None => false
  end.

(** [d[k] = v]: an existing key keeps its place, a new key goes last *)
Fixpoint dict_set (d : dict) (k : string) (v : Z) : dict :=
  match d with
  | [] => [(k, v)]
  | (k', v') :: d' =>
      if String.eqb k' k then (k', v) :: d' else (k', v') :: dict_set d' k v
  end.

(** [d.items()] *)
Definition items (d : dict) : list (string * Z) := d.

(** [dict(pairs)] and the comprehension [{key: value for key, value in pairs}] *)
Definition dict_of_items (pairs : list (string * Z)) : dict :=
  fold_left (fun d kv => dict_set d (fst kv) (snd kv)) pairs [].

Definition keys (d : dict) : list string := d.*1.

(** ** [sorted(pairs, key=lambda x: x[1])]

    [sorted] is guaranteed stable, and the output of a stable sort is
    determined by its input and key, so it is modelled by the insertion
    sort that puts an element before the first element of the sorted rest
    whose key is not smaller. *)

Fixpoint insert_by_count (x : string * Z) (l : list (string * Z))
  : list (string * Z) :=
  match l with
  | [] => [x]
  | y :: l' =>
      if snd x <=? snd y then x :: y :: l' else y :: insert_by_count x l'
  end.

Fixpoint sorted_by_count (l : list (string * Z)) : list (string * Z) :=
  match l with
  | [] => []
  | x :: l' => insert_by_count x (sorted_by_count l')
  end.

(** ** The class [DocumentAnalyser] *)

Record DocumentAnalyser : Type := {
  _mincount : Z;
  _maxcount : Z;
  _documents : list dict;
  _ignorewords : gset string
}.

(** The [str or list] arguments of the constructor, [None] included. *)
Inductive textarg : Type :=
| ArgNone
| ArgStr (text : string)
| ArgList (texts : list string).

(** [__add_ignore] *)
Definition add_ignore (self : DocumentAnalyser) (textdata : string)
  : DocumentAnalyser :=
  let words := wordfinder_finditer textdata in
  {| _mincount := _mincount self;
     _maxcount := _maxcount self;
     _documents := _documents self;
     _ignorewords :=
       fold_left (fun s word => s ∪ {[ word ]}) words (_ignorewords self) |}.

(** One turn of the loop of [__count_occurrences]. *)
Definition count_word (ignorewords : gset string) (worddict : dict)
  (word : string) : dict :=
  if decide (word ∈ ignorewords) then worddict
  else match dict_get worddict word with
       | Some n => dict_set worddict word (n + 1)
       | None => dict_set worddict word 1
       end.

(** [__count_occurrences] *)
Definition count_occurrences (self : DocumentAnalyser) (textdata : string)
  : DocumentAnalyser :=
  let words := wordfinder_finditer textdata in
  let worddict := fold_left (count_word (_ignorewords self)) words [] in
  {| _mincount := _mincount self;
     _maxcount := _maxcount self;
     _documents := _documents self ++ [worddict];
     _ignorewords := _ignorewords self |}.

(** [__process_check] *)
Definition process_check (self : DocumentAnalyser) (checkdocuments : textarg)
  : DocumentAnalyser :=
  match checkdocuments with
  | ArgNone => self
  | ArgStr text => count_occurrences self text
  | ArgList texts => fold_left count_occurrences texts self
  end.

(** [__process_ignore]. The loop of the last branch reads the name
    [checkdocuments], which is neither a parameter or local of this method
    nor a name of the module: evaluating it raises [NameError] before the
    first turn. *)
Definition process_ignore (self : DocumentAnalyser) (ignoredocuments : textarg)
  : result DocumentAnalyser :=
  match ignoredocuments with
  | ArgNone => Ok self
  | ArgStr text => Ok (add_ignore self text)
  | ArgList _ => Raise (NameError "checkdocuments")
  end.

(** [__init__]. The keyword arguments [mincount] and [maxcount] are [None]
    here when the caller leaves them out; [ignoredocuments] left out is
    [ArgNone]. *)
Definition init (checkdocuments ignoredocuments : textarg)
  (mincount maxcount : option Z) : result DocumentAnalyser :=
  let self := {| _mincount := 1; _maxcount := 256;
                 _documents := []; _ignorewords := ∅ |} in
  let self := {| _mincount := default (_mincount self) mincount;
                 _maxcount := default (_maxcount self) maxcount;
                 _documents := _documents self;
                 _ignorewords := _ignorewords self |} in
  bind (process_ignore self ignoredocuments) (fun self =>
  Ok (process_check self checkdocuments)).

(** ** [find_duplicates] *)

Definition in_range (self : DocumentAnalyser) (x : string * Z) : bool :=
  (snd x >=? _mincount self) && (snd x <=? _maxcount self).

(** The inner loop [for i in range(1, documentslen)]: the state is
    [(foundin, wordcount)]. *)
Definition check_document (self : DocumentAnalyser) (word : string)
  (st : Z * Z) (i : nat) : Z * Z :=
  let '(foundin, wordcount) := st in
  let doc := nth i (_documents self) [] in
  if dict_contains doc word
  then (foundin + 1, wordcount + default 0 (dict_get doc word))
  else (foundin, wordcount).

(** In [check_document] the index [i] comes from [range(1, documentslen)],
    so [self._documents[i]] is in range, and [self._documents[i][word]] is
    read under [word in self._documents[i]], so the key is there: the two
    defaults are never used. *)

(** One turn of the outer loop over [self._documents[0].items()]. *)
Definition review_word (self : DocumentAnalyser) (documentslen : nat)
  (results : dict) (entry : string * Z) : dict :=
  let '(word, firstcount) := entry in
  let '(foundin, wordcount) :=
    fold_left (check_document self word)
              (seq 1 (documentslen - 1)) (1, 0) in
  if foundin <? Z.of_nat documentslen then results
  else
    let wordcount := wordcount + firstcount in
    if (wordcount >=? _mincount self) && (wordcount <=? _maxcount self)
    then dict_set results word wordcount
    else results.

(** [None] is Python's [None]. *)
Definition find_duplicates (self : DocumentAnalyser) : option dict :=
  let documentslen := length (_documents self) in
  match documentslen with
  | O => None
  | 1%nat =>
      let results := nth 0 (_documents self) [] in
      let results := dict_of_items (sorted_by_count (items results)) in
      let results :=
        dict_of_items (List.filter (in_range self) (items results)) in
      Some results
  | _ =>
      let results :=
        fold_left (review_word self documentslen)
                  (items (nth 0 (_documents self) [])) [] in
      Some (dict_of_items (sorted_by_count (items results)))
  end.

(** ** [display_results] *)

(** [str(n)] for an [int] *)
Definition str_int (n : Z) : string := NilZero.string_of_int (Z.to_int n).

Definition spaces (n : nat) : string := string_of_list_ascii (repeat " "%char n).

(** The format specification [<32] on a [str]: the text, then spaces up to
    the width when the text is shorter. *)
Definition format_left (width : nat) (s : string) : string :=
  s +:+ spaces (width - String.length s).

(** [f'{key:<32} {value}'] *)
Definition format_entry (entry : string * Z) : string :=
  format_left 32 (fst entry) +:+ " " +:+ str_int (snd entry).

(** The lines that [display_results] prints, one per call of [print]. *)
Definition display_results (self : DocumentAnalyser) : list string :=
  match find_duplicates self with
  | None => ["No results found"%string]
  | Some worddict => map format_entry (items worddict)
  end.

(** ** [load_file]

    The file system is the input: what [os.path.isfile] answers and what
    [open(filename, 'r')] does for each name. *)

Inductive open_outcome : Type :=
| OpenRaises (detail : string)   (* [OSError]; [detail] is [str(e)] *)
| Opened (contents : string).    (* a file object whose [read()] gives [contents] *)

(** A [read()] that fails after a successful [open] is not part of this
    model of the file system. *)

Record file_system : Type := {
  isfile : string -> bool;
  open_r : string -> open_outcome
}.

(** How control leaves the [try] statement before its [finally] clause runs. *)
Inductive pending : Type :=
| Return (value : string)
| FallThrough (filelines : string).

(** [load_file]: the printed lines and the outcome. The local [f] is bound
    only when [open] returns; the [finally] clause calls [f.close()] on
    every path, the ones through the handlers included, and there [f] is
    unbound. [IOError] is [OSError] in Python 3, so the first handler takes
    every failure of [open]. *)
Definition load_file (fs : file_system) (filename : string)
  : list string * result string :=
  if negb (isfile fs filename)
  then (["Error: Unable to load " +:+ filename +:+ ", file is missing"], Ok "")
  else
    let '(f, printed, leaving) :=
      match open_r fs filename with
      | OpenRaises detail =>
          (None, ["Error: Unable to read to " +:+ filename; detail], Return "")
      | Opened contents =>
          (Some contents, [], FallThrough contents)
      end in
    match f with
    | None => (printed, Raise (UnboundLocalError "f"))
    | Some _ =>
        match leaving with
        | Return value => (printed, Ok value)
        | FallThrough filelines => (printed, Ok filelines)
        end
    end.

(** The loop of [main] that loads the files to check: an exception from
    [load_file] ends it. *)
Fixpoint load_files (fs : file_system) (files : list string)
  : list string * result (list string) :=
  match files with
  | [] => ([], Ok [])
  | filename :: files' =>
      match load_file fs filename with
      | (printed, Raise e) => (printed, Raise e)
      | (printed, Ok filelines) =>
          let '(printed', r) := load_files fs files' in
          (printed ++ printed',
           match r with
           | Ok rest => Ok (filelines :: rest)
           | Raise e => Raise e
           end)
      end
  end.


(** ** [save_results]

    The printed lines and what is written to [results.csv], [None] when
    the file is not opened. The file is given row by row, each row the
    list of its fields as [csv.writer] receives them after [str]; opening
    [results.csv] for writing is taken to succeed. *)

Definition csv_row (entry : string * Z) : list string :=
  [fst entry; str_int (snd entry)].

Definition save_results (self : DocumentAnalyser)
  : list string * option (list (list string)) :=
  let titles := ["Word"; "Count"]%string in
  match find_duplicates self with
  | None => (["No results to write to results.csv"%string], None)
  | Some worddict =>
      let csvresults := items worddict in
      ([], Some (titles :: map csv_row csvresults))
  end.

(** ** [main] *)




(** ** Notions the statements use *)

(** The count of [w] in [d], 0 when [w] is not a key. *)
Definition count_in (d : dict) (w : string) : Z := default 0 (dict_get d w).

(** The sum of the counts of [w] over [docs]. *)
Definition total_count (docs : list dict) (w : string) : Z :=
  foldr (fun d acc => count_in d w + acc) 0 docs.

(** [w] is a key of every one of [docs]. *)
Definition in_every (docs : list dict) (w : string) : bool :=
  forallb (fun d => dict_contains d w) docs.

(** [x] stands at an earlier position of [l] than [y]. *)
Definition precedes {A : Type} (x y : A) (l : list A) : Prop :=
  exists i j : nat, (i < j)%nat /\ l !! i = Some x /\ l !! j = Some y.

(** Ascending by count. *)
Definition ascending (l : list (string * Z)) : Prop :=
  StronglySorted (fun x y => snd x <= snd y) l.

(** What [__count_occurrences] builds: distinct keys, none of them ignored. *)
Definition counted (ignorewords : gset string) (d : dict) : Prop :=
  NoDup (keys d) /\ forall k, k ∈ keys d -> k ∉ ignorewords.

Definition well_formed (self : DocumentAnalyser) : Prop :=
  Forall (counted (_ignorewords self)) (_documents self).

(** In how many of [docs] the word [w] is a key. *)
Definition found_in (docs : list dict) (w : string) : Z :=
  Z.of_nat (length (List.filter (fun d => dict_contains d w) docs)).

(** For an entry of the first document and the other documents [rest]:
    the entry with the total as its count, and whether it is kept. *)
Definition summed (rest : list dict) (e : string * Z) : string * Z :=
  (fst e, total_count rest (fst e) + snd e).

Definition qualifies (self : DocumentAnalyser) (rest : list dict)
  (e : string * Z) : bool :=
  in_every rest (fst e) && in_range self (summed rest e).

(** The shape the pattern gives a token: a letter, then 2 to 60
    characters of the class [[\w\-\.]]. *)
Definition is_token (t : string) : bool :=
  match list_ascii_of_string t with
  | [] => false
  | c :: body =>
      Re.ascii_letter c
      && (2 <=? length body)%nat && (length body <=? 60)%nat
      && forallb Re.body_char body
  end.

(** How many times [w] stands in [words]. *)
Definition occurrences (w : string) (words : list string) : Z :=
  Z.of_nat (length (List.filter (String.eqb w) words)).

(** The mapping that [__count_occurrences] appends for [text]. *)
Definition document_of (ignorewords : gset string) (text : string) : dict :=
  fold_left (count_word ignorewords) (wordfinder_finditer text) [].

(** The count reported for [w]: the total over the documents when [w] is a
    key of each of them and the total is within the limits. *)
Definition reported (self : DocumentAnalyser) (w : string) : option Z :=
  let total := total_count (_documents self) w in
  if in_every (_documents self) w && in_range self (w, total)
  then Some total else None.


(** The texts that [__process_check] goes through. *)
Definition texts_of (checkdocuments : textarg) : list string :=
  match checkdocuments with
  | ArgNone => []
  | ArgStr text => [text]
  | ArgList texts => texts
  end.


(** The characters that make [csv.writer] quote a field: the delimiter,
    the quote character, and the characters of the line terminator. *)
Definition csv_special (c : ascii) : bool :=
  (Re.code c =? 44)%N || (Re.code c =? 34)%N
  || (Re.code c =? 13)%N || (Re.code c =? 10)%N.

(** ** Inputs of the scenarios *)

(** A file system in which [locked.txt] is a regular file that the process
    may not read, and every other name is a readable empty file. *)
Definition locked_fs : file_system :=
  {| isfile := fun _ => true;
     open_r := fun name =>
       if String.eqb name "locked.txt"
       then OpenRaises "[Errno 13] Permission denied: 'locked.txt'"
       else Opened "" |}.


(** A token of 41 characters. *)
Definition long_token : string := "internationalisation-of-the-documentation".

(** * Properties *)

(** ** The tokens of some texts *)

Example finditer_cat : wordfinder_finditer "cat dog dog" = ["cat"; "dog"; "dog"]%string.
Proof. vm_compute. reflexivity. Qed.

Example finditer_short : wordfinder_finditer "a a a" = [].
Proof. vm_compute. reflexivity. Qed.

Example finditer_punct :
  wordfinder_finditer "foo- a.b. 1abc x_1,__y" = ["foo"; "a.b"; "x_1"]%string.
Proof. vm_compute. reflexivity. Qed.

(** ** The scenarios of two documents, of an ignored word, of no document *)

Example scenario_cat_dog :
  exists a,
    init (ArgList ["cat dog dog"; "dog cat cat"]) ArgNone (Some 1) (Some 256)
      = Ok a
    /\ find_duplicates a = Some [("cat", 3); ("dog", 3)].
Proof. eexists. split; [reflexivity|]. vm_compute. reflexivity. Qed.

Example scenario_ignore_fish :
  exists a,
    init (ArgList ["cat dog fish"]) (ArgStr "fish") (Some 1) (Some 256) = Ok a
    /\ find_duplicates a = Some [("cat", 1); ("dog", 1)].
Proof. eexists. split; [reflexivity|]. vm_compute. reflexivity. Qed.

Example scenario_no_document :
  exists a,
    init (ArgList []) ArgNone None None = Ok a
    /\ find_duplicates a = None
    /\ display_results a = ["No results found"].
Proof.
  eexists. split; [reflexivity|]. split; vm_compute; reflexivity.
Qed.

(** ** Dicts *)

Section dict_facts.

Implicit Types (d : dict) (k w : string) (v : Z).

Lemma keys_dict_set d k v :
  keys (dict_set d k v) = if dict_contains d k then keys d else keys d ++ [k].
Proof.
  unfold dict_contains, keys.
  induction d as [|[k' v'] d IH]; csimpl; [done|].
  destruct (String.eqb_spec k' k) as [->|Hne]; csimpl; [done|].
  rewrite IH. by destruct (dict_get d k).
Qed.

Lemma dict_get_None d k : dict_get d k = None <-> k ∉ keys d.
Proof.
  unfold keys. induction d as [|[k' v'] d IH]; csimpl.
  - split; [intros _; apply not_elem_of_nil | done].
  - rewrite not_elem_of_cons. csimpl.
    destruct (String.eqb_spec k' k) as [->|Hne].
    + split; [done|]. intros [Hk _]. by destruct Hk.
    + rewrite IH. split; [by intros ?; split; [intros ->|]|by intros [_ ?]].
Qed.

Lemma dict_contains_keys d k : dict_contains d k = true <-> k ∈ keys d.
Proof.
  unfold dict_contains. destruct (dict_get d k) eqn:E.
  - split; [intros _|done].
    destruct (decide (k ∈ keys d)) as [|Hn]; [done|].
    apply dict_get_None in Hn. congruence.
  - split; [done|]. intros Hin. by apply dict_get_None in E.
Qed.

Lemma dict_contains_false d k : dict_contains d k = false <-> dict_get d k = None.
Proof. unfold dict_contains. destruct (dict_get d k); naive_solver. Qed.

Lemma dict_get_Some d k v :
  NoDup (keys d) -> dict_get d k = Some v <-> (k, v) ∈ d.
Proof.
  unfold keys. induction d as [|[k' v'] d IH]; csimpl; intros Hnd.
  - split; [done|]. intros H. by apply elem_of_nil in H.
  - apply NoDup_cons in Hnd as [Hk' Hnd]. rewrite elem_of_cons.
    destruct (String.eqb_spec k' k) as [->|Hne].
    + split; [intros [= ->]; by left|]. intros [[= ->]|Hin]; [done|].
      exfalso. apply Hk'. apply list_elem_of_fmap. by exists (k, v).
    + rewrite (IH Hnd). split; [by right|].
      intros [[= -> _]|Hin]; [by destruct Hne|done].
Qed.

Lemma dict_set_fresh d k v : k ∉ keys d -> dict_set d k v = d ++ [(k, v)].
Proof.
  unfold keys. induction d as [|[k' v'] d IH]; csimpl; [done|].
  rewrite not_elem_of_cons. csimpl. intros [Hne Hk].
  destruct (String.eqb_spec k' k) as [->|_]; [done|]. by rewrite IH.
Qed.

(** [dict(pairs)] of pairs with distinct keys lists them as they come. *)
Lemma dict_of_items_acc (l acc : list (string * Z)) :
  NoDup (keys (acc ++ l)) ->
  fold_left (fun d kv => dict_set d (fst kv) (snd kv)) l acc = acc ++ l.
Proof.
  revert acc. induction l as [|[k v] l IH]; intros acc Hnd; csimpl.
  - by rewrite app_nil_r.
  - rewrite dict_set_fresh.
    + rewrite IH; rewrite <- app_assoc; done.
    + unfold keys in *. rewrite fmap_app in Hnd.
      apply NoDup_app in Hnd as (_ & Hd & _).
      intros Hin. apply (Hd k Hin). csimpl. apply elem_of_cons. by left.
Qed.

Lemma dict_of_items_NoDup (l : list (string * Z)) :
  NoDup (keys l) -> dict_of_items l = l.
Proof. intros Hnd. unfold dict_of_items. by rewrite dict_of_items_acc. Qed.

End dict_facts.

(** ** The sort *)

Section sort_facts.

Implicit Types (x y : string * Z) (l : list (string * Z)).

Lemma insert_by_count_perm x l : insert_by_count x l ≡ₚ x :: l.
Proof.
  induction l as [|y l IH]; simpl; [done|].
  destruct (snd x <=? snd y); [done|].
  rewrite IH. apply perm_swap.
Qed.

Lemma sorted_by_count_perm l : sorted_by_count l ≡ₚ l.
Proof.
  induction l as [|x l IH]; simpl; [done|].
  by rewrite insert_by_count_perm, IH.
Qed.

Lemma insert_by_count_sorted x l :
  Sorted (fun x y => snd x <= snd y) l ->
  Sorted (fun x y => snd x <= snd y) (insert_by_count x l).
Proof.
  induction l as [|y l IH]; simpl; intros Hs.
  - by repeat constructor.
  - destruct (Z.leb_spec (snd x) (snd y)) as [Hle|Hgt].
    + constructor; [done|]. by constructor.
    + apply Sorted_inv in Hs as [Hs Hhd]. constructor; [by apply IH|].
      destruct l as [|z l]; simpl.
      * constructor. lia.
      * destruct (snd x <=? snd z); constructor; [lia|].
        by apply HdRel_inv in Hhd.
Qed.

Lemma sorted_by_count_ascending l : ascending (sorted_by_count l).
Proof.
  apply Sorted_StronglySorted.
  - intros x y z. lia.
  - induction l as [|x l IH]; simpl; [constructor|].
    by apply insert_by_count_sorted.
Qed.

(** Stability: among the entries of one count the sort changes nothing. *)
Lemma insert_by_count_stable (c : Z) x l :
  List.filter (fun e => snd e =? c) (insert_by_count x l)
  = List.filter (fun e => snd e =? c) (x :: l).
Proof.
  induction l as [|y l IH]; [done|].
  cbn [insert_by_count].
  destruct (Z.leb_spec (snd x) (snd y)) as [Hle|Hgt]; [done|].
  cbn [List.filter] in *. rewrite IH.
  destruct (Z.eqb_spec (snd x) c) as [Hx|Hx];
    destruct (Z.eqb_spec (snd y) c) as [Hy|Hy]; try done; lia.
Qed.

Lemma sorted_by_count_stable (c : Z) l :
  List.filter (fun e => snd e =? c) (sorted_by_count l)
  = List.filter (fun e => snd e =? c) l.
Proof.
  induction l as [|x l IH]; [done|].
  cbn [sorted_by_count]. rewrite insert_by_count_stable.
  cbn [List.filter]. by rewrite IH.
Qed.

Lemma ascending_filter (p : string * Z -> bool) l :
  ascending l -> ascending (List.filter p l).
Proof.
  unfold ascending. induction 1 as [|x l Hs IH Hall]; simpl; [constructor|].
  destruct (p x); [|done]. constructor; [done|].
  apply List.Forall_forall. intros y Hy. apply List.filter_In in Hy as [Hy _].
  revert y Hy. by apply List.Forall_forall.
Qed.

End sort_facts.

(** ** Positions in a list *)

Section order_facts.

Context {A : Type}.
Implicit Types (x y : A) (l : list A).

Lemma precedes_sublist x y l : precedes x y l <-> [x; y] `sublist_of` l.
Proof.
  split.
  - intros (i & j & Hij & Hi & Hj).
    rewrite <- (take_drop_middle l i x Hi).
    apply sublist_inserts_l. apply sublist_skip.
    assert (drop (S i) l !! (j - S i)%nat = Some y) as Hd.
    { rewrite lookup_drop. rewrite <- Hj. f_equal. lia. }
    rewrite <- (take_drop_middle _ _ y Hd).
    apply sublist_inserts_l. apply sublist_skip. apply sublist_nil_l.
  - intros Hsub.
    apply sublist_cons_l in Hsub as (l1 & l2 & -> & Hsub).
    apply sublist_cons_l in Hsub as (l3 & l4 & -> & _).
    exists (length l1), (length l1 + S (length l3))%nat. split; [lia|]. split.
    + by rewrite list_lookup_middle.
    + rewrite lookup_app_r by lia.
      replace (length l1 + S (length l3) - length l1)%nat
        with (S (length l3)) by lia.
      simpl. by rewrite list_lookup_middle.
Qed.

Lemma sublist_List_filter (p : A -> bool) l : List.filter p l `sublist_of` l.
Proof.
  induction l as [|x l IH]; simpl; [constructor|].
  destruct (p x); by constructor.
Qed.

Lemma sublist_into_filter (p : A -> bool) l k :
  k `sublist_of` l -> Forall (fun x => p x = true) k ->
  k `sublist_of` List.filter p l.
Proof.
  induction 1 as [|x k l Hs IH|x k l Hs IH]; simpl; intros Hall.
  - constructor.
  - apply Forall_cons in Hall as [-> Hall]. constructor. by apply IH.
  - destruct (p x); [constructor|]; by apply IH.
Qed.

End order_facts.

Lemma precedes_fmap {A B : Type} (f : A -> B) (x y : A) (l : list A) :
  precedes x y l -> precedes (f x) (f y) (f <$> l).
Proof.
  rewrite !precedes_sublist. intros Hs.
  change [f x; f y] with (f <$> [x; y]). by apply fmap_sublist.
Qed.

Lemma precedes_mono {A : Type} (x y : A) (l k : list A) :
  precedes x y l -> l `sublist_of` k -> precedes x y k.
Proof. rewrite !precedes_sublist. intros H1 H2. by etrans. Qed.

(** Two entries of one count that the sort leaves in some order were in
    that order before it. *)
Lemma sorted_by_count_precedes (l : list (string * Z)) w1 w2 c :
  precedes (w1, c) (w2, c) (sorted_by_count l) -> precedes (w1, c) (w2, c) l.
Proof.
  rewrite !precedes_sublist. intros Hs.
  apply (sublist_into_filter (fun e => snd e =? c)) in Hs.
  - rewrite sorted_by_count_stable in Hs.
    etrans; [exact Hs|]. apply sublist_List_filter.
  - repeat constructor; simpl; apply Z.eqb_refl.
Qed.

(** ** The constructor *)

Section constructor_facts.

Implicit Types (self : DocumentAnalyser) (ig : gset string) (d : dict).

Lemma count_word_counted ig d w : counted ig d -> counted ig (count_word ig d w).
Proof.
  intros [Hnd Hig]. unfold count_word.
  destruct (decide (w ∈ ig)) as [|Hw]; [done|].
  destruct (dict_get d w) as [n|] eqn:E; unfold counted;
    rewrite keys_dict_set; unfold dict_contains; rewrite E; [done|].
  apply dict_get_None in E. split.
  - apply NoDup_app. split; [done|]. split; [|apply NoDup_singleton].
    intros k Hk ->%list_elem_of_singleton. done.
  - intros k [Hk | ->%list_elem_of_singleton]%elem_of_app; [by apply Hig|done].
Qed.

Lemma count_words_counted ig (words : list string) d :
  counted ig d -> counted ig (fold_left (count_word ig) words d).
Proof.
  revert d. induction words as [|w words IH]; intros d Hd; simpl; [done|].
  by apply IH, count_word_counted.
Qed.

Lemma counted_nil ig : counted ig [].
Proof.
  split; [constructor|]. intros k Hk. by apply elem_of_nil in Hk.
Qed.

Lemma count_occurrences_well_formed self text :
  well_formed self -> well_formed (count_occurrences self text).
Proof.
  unfold well_formed. simpl. intros Hwf. apply Forall_app. split; [done|].
  constructor; [|constructor]. apply count_words_counted, counted_nil.
Qed.

Lemma process_check_well_formed self cd :
  well_formed self -> well_formed (process_check self cd).
Proof.
  destruct cd as [|text|texts]; simpl; [done|apply count_occurrences_well_formed|].
  revert self. induction texts as [|t texts IH]; intros self Hwf; simpl; [done|].
  by apply IH, count_occurrences_well_formed.
Qed.

Lemma init_well_formed cd ign mn mx a :
  init cd ign mn mx = Ok a -> well_formed a.
Proof.
  unfold init. destruct ign as [|text|texts]; simpl; [| |done];
    intros [= <-]; apply process_check_well_formed; constructor.
Qed.

(** The limits are the ones given, or 1 and 256. *)
Lemma count_occurrences_limits self text :
  _mincount (count_occurrences self text) = _mincount self
  /\ _maxcount (count_occurrences self text) = _maxcount self
  /\ _ignorewords (count_occurrences self text) = _ignorewords self.
Proof. done. Qed.

Lemma process_check_limits self cd :
  _mincount (process_check self cd) = _mincount self
  /\ _maxcount (process_check self cd) = _maxcount self
  /\ _ignorewords (process_check self cd) = _ignorewords self.
Proof.
  destruct cd as [|text|texts]; simpl; [done|done|].
  revert self. induction texts as [|t texts IH]; intros self; simpl; [done|].
  destruct (IH (count_occurrences self t)) as (-> & -> & ->). done.
Qed.

End constructor_facts.

(** ** [find_duplicates] *)

Section find_duplicates_facts.

Implicit Types (self : DocumentAnalyser) (d : dict) (rest : list dict).

Lemma found_in_bound rest w :
  0 <= found_in rest w <= Z.of_nat (length rest)
  /\ (found_in rest w = Z.of_nat (length rest) <-> in_every rest w = true).
Proof.
  unfold found_in, in_every.
  induction rest as [|d rest IH]; simpl; [done|].
  destruct (dict_contains d w); simpl.
  - split; [lia|]. destruct IH as [_ <-]. lia.
  - split; [lia|]. split; [lia|done].
Qed.

Lemma inner_loop self word (pre rest : list dict) foundin wordcount :
  _documents self = pre ++ rest ->
  fold_left (check_document self word)
            (seq (length pre) (length rest)) (foundin, wordcount)
  = (foundin + found_in rest word, wordcount + total_count rest word).
Proof.
  revert pre foundin wordcount.
  induction rest as [|d rest IH]; intros pre foundin wordcount Hdocs.
  - simpl. unfold found_in. simpl. f_equal; lia.
  - cbn [length seq fold_left]. unfold check_document at 2.
    rewrite Hdocs, nth_middle.
    specialize (IH (pre ++ [d])). rewrite length_app in IH. simpl in IH.
    replace (length pre + 1)%nat with (S (length pre)) in IH by lia.
    rewrite <- app_assoc in IH. simpl in IH.
    unfold found_in, total_count, count_in, dict_contains in *. simpl.
    destruct (dict_get d word) as [n|]; simpl; rewrite IH by done;
      f_equal; lia.
Qed.

Lemma review_word_spec self d0 rest results e :
  _documents self = d0 :: rest ->
  review_word self (length (_documents self)) results e
  = if qualifies self rest e
    then dict_set results (fst e) (snd (summed rest e))
    else results.
Proof.
  intros Hdocs. destruct e as [word firstcount].
  unfold review_word, qualifies, summed, in_range. rewrite Hdocs. simpl.
  rewrite Nat.sub_0_r.
  pose proof (inner_loop self word [d0] rest 1 0 Hdocs) as Hin.
  change (length [d0]) with 1%nat in Hin. rewrite Hin, Z.add_0_l.
  destruct (found_in_bound rest word) as [Hb Hiff].
  destruct (in_every rest word) eqn:Hall.
  - assert (found_in rest word = Z.of_nat (length rest)) as -> by by apply Hiff.
    destruct (Z.ltb_spec (1 + Z.of_nat (length rest))
                         (Z.of_nat (S (length rest)))) as [Hlt|_]; [lia|].
    simpl. done.
  - assert (found_in rest word <> Z.of_nat (length rest)) as Hne.
    { intros Heq. apply Hiff in Heq. done. }
    destruct (Z.ltb_spec (1 + found_in rest word)
                         (Z.of_nat (S (length rest)))) as [_|Hge]; [done|lia].
Qed.

Lemma keys_summed rest (l : list (string * Z)) :
  keys (summed rest <$> l) = keys l.
Proof. unfold keys. rewrite <- list_fmap_compose. done. Qed.

Lemma outer_loop self d0 rest (l results : list (string * Z)) :
  _documents self = d0 :: rest ->
  NoDup (keys (results ++ l)) ->
  fold_left (review_word self (length (_documents self))) l results
  = results ++ (summed rest <$> List.filter (qualifies self rest) l).
Proof.
  intros Hdocs. revert results.
  induction l as [|e l IH]; intros results Hnd; simpl.
  - by rewrite app_nil_r.
  - rewrite (review_word_spec self d0 rest results e Hdocs).
    destruct (qualifies self rest e).
    + rewrite dict_set_fresh.
      * change (fst e, snd (summed rest e)) with (summed rest e).
        rewrite IH; [by rewrite <- app_assoc|].
        rewrite <- app_assoc. unfold keys in *.
        rewrite fmap_app in *. done.
      * unfold keys in *. rewrite fmap_app in Hnd.
        apply NoDup_app in Hnd as (_ & Hd & _).
        intros Hin. apply (Hd _ Hin). csimpl. apply elem_of_cons. by left.
    + apply IH. unfold keys in *. rewrite !fmap_app in *.
      apply NoDup_app in Hnd as (H1 & H2 & H3). apply NoDup_app.
      split; [done|]. csimpl in *. apply NoDup_cons in H3 as [_ H3].
      split; [|done]. intros x Hx Hx'. apply (H2 x Hx). by right.
Qed.

End find_duplicates_facts.

Section result_facts.

Implicit Types (self : DocumentAnalyser) (d : dict) (l : list (string * Z)).

Lemma elem_of_List_filter {A : Type} (p : A -> bool) (x : A) (l : list A) :
  x ∈ List.filter p l <-> p x = true /\ x ∈ l.
Proof. rewrite !list_elem_of_In, List.filter_In. tauto. Qed.

Lemma NoDup_keys_sorted l : NoDup (keys l) -> NoDup (keys (sorted_by_count l)).
Proof. unfold keys. by rewrite sorted_by_count_perm. Qed.

Lemma NoDup_keys_filter (p : string * Z -> bool) l :
  NoDup (keys l) -> NoDup (keys (List.filter p l)).
Proof.
  intros Hnd. apply (sublist_NoDup _ (keys l)); [done|].
  unfold keys. apply fmap_sublist, sublist_List_filter.
Qed.

Lemma find_duplicates_one self d0 :
  well_formed self -> _documents self = [d0] ->
  find_duplicates self
  = Some (List.filter (in_range self) (sorted_by_count d0)).
Proof.
  unfold well_formed. intros Hwf Hdocs. rewrite Hdocs in Hwf.
  apply Forall_cons in Hwf as [[Hnd _] _].
  unfold find_duplicates, items. rewrite Hdocs. simpl.
  rewrite (dict_of_items_NoDup (sorted_by_count d0))
    by by apply NoDup_keys_sorted.
  rewrite dict_of_items_NoDup; [done|].
  by apply NoDup_keys_filter, NoDup_keys_sorted.
Qed.

Lemma find_duplicates_many self d0 d1 rest :
  well_formed self -> _documents self = d0 :: d1 :: rest ->
  find_duplicates self
  = Some (sorted_by_count
            (summed (d1 :: rest)
               <$> List.filter (qualifies self (d1 :: rest)) d0)).
Proof.
  unfold well_formed. intros Hwf Hdocs. rewrite Hdocs in Hwf.
  apply Forall_cons in Hwf as [[Hnd _] _].
  assert (length (_documents self) = S (S (length rest))) as Hlen
    by by rewrite Hdocs.
  unfold find_duplicates, items. cbv zeta. rewrite Hlen. cbv iota beta.
  rewrite <- Hlen.
  rewrite (outer_loop self d0 (d1 :: rest) _ [] Hdocs)
    by (rewrite Hdocs; simpl; done).
  rewrite Hdocs. simpl nth. rewrite app_nil_l.
  rewrite dict_of_items_NoDup; [done|].
  apply NoDup_keys_sorted. rewrite keys_summed. by apply NoDup_keys_filter.
Qed.

Lemma in_every_nth (docs : list dict) w :
  in_every docs w = true
  <-> forall i, (i < length docs)%nat -> dict_contains (nth i docs []) w = true.
Proof.
  unfold in_every. rewrite forallb_forall. split.
  - intros H i Hi. apply H. by apply nth_In.
  - intros H d Hd. apply (In_nth _ _ []) in Hd as (i & Hi & <-). by apply H.
Qed.

Lemma count_in_get d w v : dict_get d w = Some v -> count_in d w = v.
Proof. unfold count_in. by intros ->. Qed.

Lemma total_count_cons d (docs : list dict) w :
  total_count (d :: docs) w = count_in d w + total_count docs w.
Proof. done. Qed.

(** The entries of the result for two documents or more. *)
Lemma find_duplicates_many_get self d0 d1 rest :
  well_formed self -> _documents self = d0 :: d1 :: rest ->
  exists r, find_duplicates self = Some r /\ NoDup (keys r) /\
    forall w v, dict_get r w = Some v <->
      dict_contains d0 w = true /\ in_every (d1 :: rest) w = true
      /\ v = total_count (d0 :: d1 :: rest) w
      /\ _mincount self <= v <= _maxcount self.
Proof.
  intros Hwf Hdocs. eexists. split; [by apply find_duplicates_many|].
  unfold well_formed in Hwf. rewrite Hdocs in Hwf.
  apply Forall_cons in Hwf as [[Hnd _] _].
  set (R := d1 :: rest).
  assert (NoDup (keys (sorted_by_count
            (summed R <$> List.filter (qualifies self R) d0)))) as Hr.
  { apply NoDup_keys_sorted. rewrite keys_summed. by apply NoDup_keys_filter. }
  split; [done|]. intros w v.
  rewrite (dict_get_Some _ _ _ Hr), sorted_by_count_perm, list_elem_of_fmap.
  rewrite total_count_cons. split.
  - intros ([k fc] & [= -> ->] & [Hq Hin]%elem_of_List_filter).
    unfold qualifies, in_range, summed in Hq. cbn [fst snd] in *.
    apply andb_true_iff in Hq as [Hall Hrange].
    apply andb_true_iff in Hrange as [Hmin%Z.geb_le Hmax%Z.leb_le].
    apply (dict_get_Some _ _ _ Hnd) in Hin as Hget.
    rewrite (count_in_get _ _ _ Hget).
    split; [by unfold dict_contains; rewrite Hget|].
    split; [done|].
    change (count_in d1 k + total_count rest k) with (total_count R k).
    split; lia.
  - intros (Hc & Hall & -> & Hmin & Hmax).
    unfold dict_contains in Hc.
    destruct (dict_get d0 w) as [fc|] eqn:Hget; [|done].
    rewrite (count_in_get _ _ _ Hget) in *.
    exists (w, fc). unfold summed. cbn [fst snd].
    split; [f_equal; lia|]. apply elem_of_List_filter.
    split; [|by apply (dict_get_Some _ _ _ Hnd)].
    unfold qualifies, in_range, summed. cbn [fst snd].
    rewrite Hall. apply andb_true_iff.
    rewrite andb_true_iff, Z.geb_le, Z.leb_le. split; [done|lia].
Qed.

(** The entries of the result for one document. *)
Lemma find_duplicates_one_get self d0 :
  well_formed self -> _documents self = [d0] ->
  exists r, find_duplicates self = Some r /\ NoDup (keys r) /\ ascending r /\
    forall w v, dict_get r w = Some v <->
      dict_get d0 w = Some v /\ _mincount self <= v <= _maxcount self.
Proof.
  intros Hwf Hdocs. eexists. split; [by apply find_duplicates_one|].
  unfold well_formed in Hwf. rewrite Hdocs in Hwf.
  apply Forall_cons in Hwf as [[Hnd _] _].
  assert (NoDup (keys (List.filter (in_range self) (sorted_by_count d0))))
    as Hr by by apply NoDup_keys_filter, NoDup_keys_sorted.
  split; [done|].
  split; [apply ascending_filter, sorted_by_count_ascending|].
  intros w v.
  rewrite (dict_get_Some _ _ _ Hr), (dict_get_Some _ _ _ Hnd).
  rewrite elem_of_List_filter, sorted_by_count_perm.
  unfold in_range. simpl. rewrite andb_true_iff, Z.geb_le, Z.leb_le. tauto.
Qed.

End result_facts.

(** * The claims *)

(** C1. For an analyser built by the constructor that holds two documents
    or more, [find_duplicates] returns a mapping in which a token [w] has
    the count [v] if and only if [w] is a key of document 1, a key of
    every other document, [v] is the sum of the counts of [w] over all the
    documents, and [v] lies between [mincount] and [maxcount] inclusive.
    A token that is not a key of document 1 is not in the result, whatever
    the other documents hold. *)
Theorem find_duplicates_intersection cd ign mn mx a :
  init cd ign mn mx = Ok a ->
  (2 <= length (_documents a))%nat ->
  exists r, find_duplicates a = Some r
    /\ (forall w v, dict_get r w = Some v <->
          dict_contains (nth 0 (_documents a) []) w = true
          /\ (forall i, (1 <= i < length (_documents a))%nat ->
                dict_contains (nth i (_documents a) []) w = true)
          /\ v = total_count (_documents a) w
          /\ _mincount a <= v <= _maxcount a)
    /\ (forall w, dict_contains (nth 0 (_documents a) []) w = false ->
          dict_get r w = None).
Proof.
  intros Hwf%init_well_formed Hlen.
  destruct (_documents a) as [|d0 [|d1 rest]] eqn:Hdocs; simpl in Hlen; [lia|lia|].
  destruct (find_duplicates_many_get a d0 d1 rest Hwf Hdocs)
    as (r & Hr & Hnd & Hget).
  assert (forall w, in_every (d1 :: rest) w = true <->
            forall i, (1 <= i < length (d0 :: d1 :: rest))%nat ->
              dict_contains (nth i (d0 :: d1 :: rest) []) w = true) as Hothers.
  { intros w. rewrite in_every_nth. split.
    - intros H [|i] Hi; [lia|]. apply H. simpl in *. lia.
    - intros H i Hi. apply (H (S i)). simpl in *. lia. }
  exists r. split; [done|]. split.
  - intros w v. rewrite Hget, Hothers. done.
  - intros w Hw. destruct (dict_get r w) as [v|] eqn:E; [|done].
    apply Hget in E as [Hc _]. simpl in Hw. congruence.
Qed.

Lemma find_duplicates_intersection_witness :
  exists a,
    init (ArgList ["cat dog dog"; "dog cat cat"; "cat fish"]) ArgNone None None
      = Ok a
    /\ (2 <= length (_documents a))%nat
    /\ exists r, find_duplicates a = Some r
    /\ (forall w v, dict_get r w = Some v <->
          dict_contains (nth 0 (_documents a) []) w = true
          /\ (forall i, (1 <= i < length (_documents a))%nat ->
                dict_contains (nth i (_documents a) []) w = true)
          /\ v = total_count (_documents a) w
          /\ _mincount a <= v <= _maxcount a)
    /\ (forall w, dict_contains (nth 0 (_documents a) []) w = false ->
          dict_get r w = None).
Proof.
  eexists. split; [reflexivity|]. split; [vm_compute; lia|].
  apply (find_duplicates_intersection
           (ArgList ["cat dog dog"; "dog cat cat"; "cat fish"])
           ArgNone None None).
  - reflexivity.
  - vm_compute. lia.
Defined.

(** C2. The mapping that [find_duplicates] returns for an analyser built by
    the constructor is in non-decreasing order of count, and of two
    entries with the same count the one that comes first in the result is
    the one whose token comes first in document 1's mapping. *)
Theorem find_duplicates_order cd ign mn mx a r :
  init cd ign mn mx = Ok a ->
  find_duplicates a = Some r ->
  ascending r
  /\ forall w1 w2 c,
       precedes (w1, c) (w2, c) r ->
       precedes w1 w2 (keys (nth 0 (_documents a) [])).
Proof.
  intros Hwf%init_well_formed Hr.
  destruct (_documents a) as [|d0 [|d1 rest]] eqn:Hdocs.
  - unfold find_duplicates in Hr. rewrite Hdocs in Hr. done.
  - rewrite (find_duplicates_one a d0 Hwf Hdocs) in Hr. injection Hr as <-.
    split; [apply ascending_filter, sorted_by_count_ascending|].
    intros w1 w2 c Hp. simpl.
    apply (precedes_mono _ _ _ (sorted_by_count d0)) in Hp;
      [|apply sublist_List_filter].
    apply sorted_by_count_precedes in Hp.
    apply (precedes_fmap fst) in Hp. done.
  - rewrite (find_duplicates_many a d0 d1 rest Hwf Hdocs) in Hr.
    injection Hr as <-.
    split; [apply sorted_by_count_ascending|].
    intros w1 w2 c Hp. simpl.
    apply sorted_by_count_precedes in Hp.
    apply (precedes_fmap fst) in Hp. simpl in Hp.
    fold (keys (summed (d1 :: rest)
                  <$> List.filter (qualifies a (d1 :: rest)) d0)) in Hp.
    rewrite keys_summed in Hp.
    eapply precedes_mono; [exact Hp|].
    unfold keys. apply fmap_sublist, sublist_List_filter.
Qed.

Lemma find_duplicates_order_witness :
  exists a r,
    init (ArgList ["dog cat cat emu"; "emu dog cat"]) ArgNone None None = Ok a
    /\ find_duplicates a = Some r
    /\ r = [("dog", 2); ("emu", 2); ("cat", 3)]
    /\ ascending r
    /\ forall w1 w2 c,
         precedes (w1, c) (w2, c) r ->
         precedes w1 w2 (keys (nth 0 (_documents a) [])).
Proof.
  eexists. eexists. split; [reflexivity|]. split; [vm_compute; reflexivity|].
  split; [reflexivity|].
  apply (find_duplicates_order
           (ArgList ["dog cat cat emu"; "emu dog cat"]) ArgNone None None).
  - reflexivity.
  - vm_compute. reflexivity.
Defined.

(** C3. For an analyser built by the constructor that holds exactly one
    document, [find_duplicates] returns a mapping whose entries are the
    entries of that document with a count between [mincount] and
    [maxcount] inclusive, in ascending order of count; no entry of the
    result has a count outside the range. *)
Theorem find_duplicates_single cd ign mn mx a :
  init cd ign mn mx = Ok a ->
  length (_documents a) = 1%nat ->
  exists r, find_duplicates a = Some r
    /\ NoDup (keys r)
    /\ (forall w v, dict_get r w = Some v <->
          dict_get (nth 0 (_documents a) []) w = Some v
          /\ _mincount a <= v <= _maxcount a)
    /\ ascending r
    /\ (forall w v, (w, v) ∈ r -> _mincount a <= v <= _maxcount a).
Proof.
  intros Hwf%init_well_formed Hlen.
  destruct (_documents a) as [|d0 [|d1 rest]] eqn:Hdocs; simpl in Hlen; [lia| |lia].
  destruct (find_duplicates_one_get a d0 Hwf Hdocs)
    as (r & Hr & Hnd & Hasc & Hget).
  exists r. repeat (split; [done|]).
  intros w v Hin. apply (dict_get_Some _ _ _ Hnd) in Hin.
  by apply Hget in Hin as [_ ?].
Qed.

Lemma find_duplicates_single_witness :
  exists a,
    init (ArgStr "cat dog dog emu emu emu") ArgNone (Some 2) (Some 3) = Ok a
    /\ length (_documents a) = 1%nat
    /\ exists r, find_duplicates a = Some r
    /\ NoDup (keys r)
    /\ (forall w v, dict_get r w = Some v <->
          dict_get (nth 0 (_documents a) []) w = Some v
          /\ _mincount a <= v <= _maxcount a)
    /\ ascending r
    /\ (forall w v, (w, v) ∈ r -> _mincount a <= v <= _maxcount a).
Proof.
  eexists. split; [reflexivity|]. split; [vm_compute; reflexivity|].
  apply (find_duplicates_single
           (ArgStr "cat dog dog emu emu emu") ArgNone (Some 2) (Some 3)).
  - reflexivity.
  - vm_compute. reflexivity.
Defined.

(** C4. [find_duplicates] returns [None] exactly when the analyser holds
    no document; an analyser that holds one document or more gets a
    mapping. The documents ["apple"] and ["banana"] share no token, and the
    result for them is the empty mapping, not [None]. *)
Theorem find_duplicates_no_result :
  (forall a, find_duplicates a = None <-> _documents a = [])
  /\ (forall a, (1 <= length (_documents a))%nat <->
                exists r, find_duplicates a = Some r)
  /\ (forall mn mx, exists a,
        init (ArgList ["apple"; "banana"]) ArgNone mn mx = Ok a
        /\ find_duplicates a = Some []).
Proof.
  split; [|split].
  - intros a. unfold find_duplicates.
    destruct (_documents a) as [|d0 [|d1 rest]]; simpl; split; done.
  - intros a. unfold find_duplicates.
    destruct (_documents a) as [|d0 [|d1 rest]]; simpl; split;
      try (intros; lia); try (intros [r Hr]; done); intros _; eauto.
  - intros mn mx. eexists. split; [reflexivity|].
    vm_compute. reflexivity.
Qed.

(** ** The ignore set *)

Lemma add_ignore_words (words : list string) (s : gset string) w :
  w ∈ fold_left (fun s word => s ∪ {[ word ]}) words s <-> w ∈ s \/ w ∈ words.
Proof.
  revert s. induction words as [|x words IH]; intros s; simpl.
  - rewrite elem_of_nil. tauto.
  - rewrite IH, elem_of_union, elem_of_singleton, elem_of_cons. tauto.
Qed.

(** C5. In an analyser built by the constructor no member of the ignore
    set is a key of any document's mapping; when the ignore text is one
    string, the ignore set holds exactly the tokens of that string. *)
Theorem ignored_never_counted cd ign mn mx a :
  init cd ign mn mx = Ok a ->
  (forall w d, w ∈ _ignorewords a -> d ∈ _documents a ->
     dict_contains d w = false)
  /\ (forall text, ign = ArgStr text ->
        forall w, w ∈ _ignorewords a <-> w ∈ wordfinder_finditer text).
Proof.
  intros Hinit. split.
  - apply init_well_formed in Hinit as Hwf.
    intros w d Hw Hd. unfold well_formed in Hwf.
    rewrite List.Forall_forall in Hwf.
    destruct (Hwf d) as [_ Hig]; [by apply list_elem_of_In|].
    destruct (dict_contains d w) eqn:E; [|done].
    apply dict_contains_keys in E. by destruct (Hig w E).
  - intros text -> w. unfold init in Hinit. simpl in Hinit.
    injection Hinit as <-.
    match goal with
    | |- context [process_check ?s cd] =>
        destruct (process_check_limits s cd) as (_ & _ & ->)
    end.
    simpl. rewrite add_ignore_words, elem_of_empty. tauto.
Qed.

Lemma ignored_never_counted_witness :
  exists a,
    init (ArgList ["cat dog fish"; "fish cat"]) (ArgStr "fish") None None = Ok a
    /\ (forall w d, w ∈ _ignorewords a -> d ∈ _documents a ->
          dict_contains d w = false)
    /\ (forall text, ArgStr "fish" = ArgStr text ->
          forall w, w ∈ _ignorewords a <-> w ∈ wordfinder_finditer text).
Proof.
  eexists. split; [reflexivity|].
  apply (ignored_never_counted
           (ArgList ["cat dog fish"; "fish cat"]) (ArgStr "fish") None None).
  reflexivity.
Defined.

(** C6 (the code departs from it). A list of ignore texts makes the
    constructor raise [NameError]: no ignore set is built from it. *)
Theorem init_ignore_list_raises cd texts mn mx :
  init cd (ArgList texts) mn mx = Raise (NameError "checkdocuments").
Proof. reflexivity. Qed.

(** ** [load_file] *)

Lemma load_file_open_fails fs filename detail :
  isfile fs filename = true ->
  open_r fs filename = OpenRaises detail ->
  load_file fs filename
  = (["Error: Unable to read to " +:+ filename; detail],
     Raise (UnboundLocalError "f")).
Proof. intros Hf Ho. unfold load_file. by rewrite Hf, Ho. Qed.

(** C7 (the code departs from it). For a file that exists and that [open]
    refuses, [load_file] prints its two lines and then raises
    [UnboundLocalError] instead of returning the empty text, and the loop
    of [main] that loads the files stops there. *)
Theorem load_file_locked_raises :
  load_file locked_fs "locked.txt"
  = (["Error: Unable to read to locked.txt";
      "[Errno 13] Permission denied: 'locked.txt'"],
     Raise (UnboundLocalError "f"))
  /\ snd (load_files locked_fs ["notes.txt"; "locked.txt"; "more.txt"])
     = Raise (UnboundLocalError "f").
Proof. split; reflexivity. Qed.

(** ** The scenario of the one-letter words *)

(** C8 as stated fails: [a] is one character long and a token has three
    at least, so neither document of ["a a a"; "a a"] counts it, and the
    result holds no [a], with the count 5 or any other. *)
Lemma scenario3_one_letter_words :
  exists a,
    init (ArgList ["a a a"; "a a"]) ArgNone (Some 4) (Some 256) = Ok a
    /\ _documents a = [[]; []]
    /\ find_duplicates a = Some []
    /\ ~ (exists r, find_duplicates a = Some r /\ dict_get r "a" = Some 5).
Proof.
  eexists. split; [reflexivity|]. split; [vm_compute; reflexivity|].
  split; [vm_compute; reflexivity|].
  intros (r & Hr & Hget). vm_compute in Hr. injection Hr as <-. done.
Qed.

(** C8, amended. The documents ["a a a"] and ["a a"] give the empty
    mapping under the limits 4 and 256. With a word of three letters in
    its place, ["aaa aaa aaa"] and ["aaa aaa"], the result under the
    limits 4 and 256 holds [aaa] with the total 5, and under the limits 4
    and 4 it does not hold [aaa]. *)
Theorem scenario3_three_letter_words :
  (exists a,
     init (ArgList ["a a a"; "a a"]) ArgNone (Some 4) (Some 256) = Ok a
     /\ find_duplicates a = Some [])
  /\ (exists a,
        init (ArgList ["aaa aaa aaa"; "aaa aaa"]) ArgNone (Some 4) (Some 256)
          = Ok a
        /\ find_duplicates a = Some [("aaa", 5)])
  /\ (exists a r,
        init (ArgList ["aaa aaa aaa"; "aaa aaa"]) ArgNone (Some 4) (Some 4)
          = Ok a
        /\ find_duplicates a = Some r
        /\ dict_get r "aaa" = None).
Proof.
  split; [|split].
  - eexists. split; [reflexivity|]. vm_compute. reflexivity.
  - eexists. split; [reflexivity|]. vm_compute. reflexivity.
  - eexists. eexists. split; [reflexivity|].
    split; [vm_compute; reflexivity|]. reflexivity.
Qed.

(** ** [display_results] *)

Lemma length_append (s1 s2 : string) :
  String.length (s1 +:+ s2) = (String.length s1 + String.length s2)%nat.
Proof.
  induction s1 as [|c s1 IH]; [done|].
  change (String c s1 +:+ s2) with (String c (s1 +:+ s2)).
  simpl. by rewrite IH.
Qed.

Lemma append_assoc (s1 s2 s3 : string) :
  (s1 +:+ s2) +:+ s3 = s1 +:+ s2 +:+ s3.
Proof.
  induction s1 as [|c s1 IH]; [done|].
  change ((String c s1 +:+ s2) +:+ s3) with (String c ((s1 +:+ s2) +:+ s3)).
  change (String c s1 +:+ s2 +:+ s3) with (String c (s1 +:+ s2 +:+ s3)).
  by rewrite IH.
Qed.

Lemma length_spaces n : String.length (spaces n) = n.
Proof. unfold spaces. induction n as [|n IH]; [done|]. simpl. by rewrite IH. Qed.

Lemma length_format_left width s :
  String.length (format_left width s) = Nat.max width (String.length s).
Proof. unfold format_left. rewrite length_append, length_spaces. lia. Qed.

(** C9 as stated fails: for a token of 41 characters the line printed is
    the whole token, a space and the count, 43 characters in all, where a
    column of 32 characters, a space and the count [1] make 34. *)
Lemma display_results_long_token :
  exists a line,
    init (ArgStr long_token) ArgNone None None = Ok a
    /\ display_results a = [line]
    /\ line = long_token +:+ " 1"
    /\ String.length line = 43%nat
    /\ String.length line <> (32 + 1 + String.length (str_int 1))%nat.
Proof.
  eexists. eexists. split; [reflexivity|].
  split; [vm_compute; reflexivity|]. split; [reflexivity|].
  split; [reflexivity|]. vm_compute. lia.
Qed.

(** C9, amended. When [find_duplicates] gives [None], [display_results]
    prints the one line [No results found]. Otherwise it prints one line
    per entry of the mapping, in its order: the token, then spaces up to
    a width of 32 characters when the token is shorter (a longer token is
    printed whole), then one space and the count in decimal. *)
Theorem display_results_lines a :
  (find_duplicates a = None -> display_results a = ["No results found"])
  /\ (forall r, find_duplicates a = Some r ->
        length (display_results a) = length r
        /\ forall i w v, r !! i = Some (w, v) ->
             display_results a !! i
             = Some (w +:+ spaces (32 - String.length w) +:+ " " +:+ str_int v)
             /\ String.length (w +:+ spaces (32 - String.length w))
                = Nat.max 32 (String.length w)).
Proof.
  unfold display_results. split.
  - by intros ->.
  - intros r ->. unfold items. split; [by rewrite length_map|].
    intros i w v Hi. split; [|apply length_format_left].
    change (map format_entry r) with (format_entry <$> r).
    unfold dict in *. rewrite list_lookup_fmap, Hi. simpl.
    unfold format_entry, format_left. simpl. f_equal. apply append_assoc.
Qed.

(** ** Limits that exclude every count *)

Lemma filter_in_range_empty self (l : list (string * Z)) :
  _mincount self > _maxcount self -> List.filter (in_range self) l = [].
Proof.
  intros Hgt. induction l as [|e l IH]; [done|]. simpl. rewrite IH.
  unfold in_range.
  destruct (Z.geb_spec (snd e) (_mincount self));
    destruct (Z.leb_spec (snd e) (_maxcount self)); simpl; try done; lia.
Qed.

Lemma review_word_empty_range self n results e :
  _mincount self > _maxcount self -> review_word self n results e = results.
Proof.
  intros Hgt. unfold review_word. destruct e as [word firstcount].
  destruct (fold_left _ _ _) as [foundin wordcount].
  destruct (foundin <? Z.of_nat n); [done|].
  destruct (Z.geb_spec (wordcount + firstcount) (_mincount self));
    destruct (Z.leb_spec (wordcount + firstcount) (_maxcount self));
    simpl; try done; lia.
Qed.

(** C10. When [mincount] is greater than [maxcount] and the analyser holds
    one document or more, [find_duplicates] returns the empty mapping. *)
Theorem find_duplicates_empty_range a :
  _mincount a > _maxcount a ->
  (1 <= length (_documents a))%nat ->
  find_duplicates a = Some [].
Proof.
  intros Hgt Hlen. unfold find_duplicates, items.
  destruct (_documents a) as [|d0 [|d1 rest]] eqn:Hdocs; simpl in Hlen; [lia| |].
  - cbv zeta. simpl length. cbv iota. by rewrite filter_in_range_empty.
  - cbv zeta. simpl length. cbv iota.
    assert (forall l, fold_left (review_word a (S (S (length rest)))) l [] = [])
      as ->; [|done].
    induction l as [|e l IH]; [done|]. simpl.
    by rewrite review_word_empty_range.
Qed.

Lemma find_duplicates_empty_range_witness :
  exists a,
    init (ArgList ["cat dog dog"; "dog cat"]) ArgNone (Some 5) (Some 2) = Ok a
    /\ _mincount a > _maxcount a
    /\ (1 <= length (_documents a))%nat
    /\ find_duplicates a = Some [].
Proof.
  eexists. split; [reflexivity|]. split; [vm_compute; reflexivity|].
  split; [vm_compute; lia|].
  apply find_duplicates_empty_range.
  - vm_compute. reflexivity.
  - vm_compute. lia.
Defined.

(** * Further properties of the code *)

(** ** The tokens that [wordfinder] finds *)

Section token_facts.

Import Re.

Local Arguments match_at : simpl never.

Lemma length_string_of_list_ascii (l : list ascii) :
  String.length (string_of_list_ascii l) = length l.
Proof. induction l as [|x l IH]; simpl; [done|by rewrite IH]. Qed.


Lemma run_length_prefix (n : nat) (s : list ascii) (k : nat) :
  (k <= run_length n s)%nat ->
  (k <= n)%nat /\ (k <= length s)%nat /\ forallb body_char (firstn k s) = true.
Proof.
  revert s k. induction n as [|n IH]; intros s k Hk.
  - simpl in Hk. assert (k = 0%nat) as -> by lia. simpl. split; [lia|]. split; [lia|done].
  - destruct s as [|c s]; simpl in Hk.
    + assert (k = 0%nat) as -> by lia. simpl. split; [lia|]. split; [lia|done].
    + destruct k as [|k]; [simpl; split; [lia|]; split; [lia|done]|].
      destruct (body_char c) eqn:Hc; [|lia].
      destruct (IH s k) as (H1 & H2 & H3); [lia|].
      simpl. rewrite Hc, H3. split; [lia|]. split; [lia|done].
Qed.

Lemma backtrack_bounds (rest : list ascii) (k0 k : nat) :
  backtrack rest k0 = Some k -> (2 <= k <= k0)%nat.
Proof.
  induction k0 as [|k0 IH]; simpl.
  - done.
  - destruct (_ && _) eqn:E.
    + intros [= <-]. apply andb_true_iff in E as [E _].
      destruct k0 as [|k0]; [done|]. lia.
    + intros H. apply IH in H. lia.
Qed.

(** What a successful attempt has matched. *)
Lemma match_at_shape (prev : option ascii) (s : list ascii) (n : nat) :
  match_at prev s = Some n ->
  (n <= length s)%nat /\ is_token (string_of_list_ascii (firstn n s)) = true.
Proof.
  unfold match_at. destruct s as [|c rest]; [done|].
  destruct (_ && _) eqn:E; [|done].
  apply andb_true_iff in E as [_ Hc].
  destruct (backtrack rest (run_length 60 rest)) as [k|] eqn:Hb; [|done].
  intros [= <-]. apply backtrack_bounds in Hb as [Hk2 Hk].
  apply run_length_prefix in Hk as (Hk60 & Hlen & Hbody).
  split; [simpl; lia|].
  unfold is_token. rewrite list_ascii_of_string_of_list_ascii.
  cbn [firstn]. rewrite Hc, Hbody, length_firstn.
  replace (k `min` length rest)%nat with k by lia.
  assert ((2 <=? k)%nat = true) as -> by by apply Nat.leb_le.
  assert ((k <=? 60)%nat = true) as -> by by apply Nat.leb_le.
  done.
Qed.


Lemma scan_tokens (prev : option ascii) (s : list ascii) (skip : nat) t :
  t ∈ scan prev s skip ->
  is_token t = true
  /\ exists pre post, s = pre ++ list_ascii_of_string t ++ post.
Proof.
  revert prev skip. induction s as [|c s IH]; intros prev skip; simpl.
  - intros H. by apply elem_of_nil in H.
  - assert (forall p k, t ∈ scan p s k ->
              is_token t = true
              /\ exists pre post, c :: s = pre ++ list_ascii_of_string t ++ post)
      as Hnext.
    { intros p k Ht. destruct (IH p k Ht) as (Htok & pre & post & ->).
      split; [done|]. by exists (c :: pre), post. }
    destruct skip as [|k]; [|by apply Hnext].
    destruct (match_at prev (c :: s)) as [n|] eqn:Hm; [|by apply Hnext].
    intros [->|Ht]%elem_of_cons; [|by apply (Hnext _ _ Ht)].
    apply match_at_shape in Hm as [Hn Htok]. split; [done|].
    exists [], (skipn n (c :: s)).
    rewrite list_ascii_of_string_of_list_ascii. simpl app.
    by rewrite firstn_skipn.
Qed.


End token_facts.

(** X1. Every token that [wordfinder] finds is a letter of [A-Za-z]
    followed by 2 to 60 characters that are word characters, hyphens or
    full stops: it has 3 to 61 characters. *)
Theorem finditer_token_shape text t :
  t ∈ wordfinder_finditer text ->
  is_token t = true /\ (3 <= String.length t <= 61)%nat.
Proof.
  intros [Htok _]%scan_tokens. split; [done|].
  unfold is_token in Htok. rewrite <- (string_of_list_ascii_of_string t).
  destruct (list_ascii_of_string t) as [|c body]; [done|].
  apply andb_true_iff in Htok as [Htok _].
  apply andb_true_iff in Htok as [Htok H60].
  apply andb_true_iff in Htok as [_ H2].
  apply Nat.leb_le in H2, H60.
  rewrite length_string_of_list_ascii. simpl. lia.
Qed.

Lemma finditer_token_shape_witness :
  "x_1" ∈ wordfinder_finditer "foo- a.b. 1abc x_1,__y"
  /\ is_token "x_1" = true /\ (3 <= String.length "x_1" <= 61)%nat.
Proof.
  assert ("x_1" ∈ wordfinder_finditer "foo- a.b. 1abc x_1,__y") as H.
  { vm_compute. apply list_elem_of_In. simpl. tauto. }
  split; [exact H|].
  exact (finditer_token_shape "foo- a.b. 1abc x_1,__y" "x_1" H).
Defined.


(** ** What [__count_occurrences] counts *)

Section counting_facts.

Implicit Types (d : dict) (w word : string) (ig : gset string).

Lemma dict_get_set d k (v : Z) k' :
  dict_get (dict_set d k v) k'
  = if String.eqb k k' then Some v else dict_get d k'.
Proof.
  induction d as [|[k1 v1] d IH]; simpl.
  - by destruct (String.eqb k k').
  - destruct (String.eqb_spec k1 k) as [->|Hk]; simpl.
    + by destruct (String.eqb k k').
    + rewrite IH. destruct (String.eqb_spec k1 k') as [->|Hk1];
        destruct (String.eqb_spec k k') as [->|Hk2]; done.
Qed.

Lemma count_word_get ig d word w :
  dict_get (count_word ig d word) w
  = if decide (word ∈ ig) then dict_get d w
    else if String.eqb word w then Some (count_in d w + 1)
    else dict_get d w.
Proof.
  unfold count_word, count_in. destruct (decide (word ∈ ig)); [done|].
  destruct (dict_get d word) as [m|] eqn:E; rewrite dict_get_set;
    destruct (String.eqb_spec word w) as [<-|Hne]; try done;
    by rewrite E.
Qed.

Lemma occurrences_cons w word (words : list string) :
  occurrences w (word :: words)
  = (if String.eqb w word then 1 else 0) + occurrences w words.
Proof.
  unfold occurrences. simpl. destruct (String.eqb w word); simpl; lia.
Qed.

Lemma occurrences_nonneg w (words : list string) : 0 <= occurrences w words.
Proof. unfold occurrences. lia. Qed.

Lemma occurrences_zero w (words : list string) :
  occurrences w words = 0 <-> w ∉ words.
Proof.
  induction words as [|word words IH].
  - split; [intros _; apply not_elem_of_nil|done].
  - rewrite occurrences_cons, not_elem_of_cons.
    pose proof (occurrences_nonneg w words).
    destruct (String.eqb_spec w word) as [->|Hne].
    + split; [lia|]. by intros [? _].
    + rewrite <- IH. split; [intros; split; [done|lia]|intros [_ ?]; lia].
Qed.

Lemma count_words_get ig (words : list string) d w :
  dict_get (fold_left (count_word ig) words d) w
  = if decide (w ∈ ig) then dict_get d w
    else if occurrences w words =? 0 then dict_get d w
    else Some (count_in d w + occurrences w words).
Proof.
  revert d. induction words as [|word words IH]; intros d.
  - simpl. by destruct (decide (w ∈ ig)).
  - cbn [fold_left]. rewrite IH, occurrences_cons.
    pose proof (occurrences_nonneg w words) as Hpos.
    unfold count_in at 1. rewrite count_word_get.
    destruct (decide (w ∈ ig)) as [Hw|Hw].
    + destruct (decide (word ∈ ig)); [done|].
      destruct (String.eqb_spec word w) as [->|_]; done.
    + destruct (String.eqb_spec w word) as [<-|Hne].
      * destruct (decide (w ∈ ig)); [done|]. rewrite String.eqb_refl. simpl.
        destruct (Z.eqb_spec (1 + occurrences w words) 0); [lia|].
        destruct (Z.eqb_spec (occurrences w words) 0) as [->|_]; f_equal; lia.
      * assert (String.eqb word w = false) as ->
          by (apply String.eqb_neq; congruence).
        assert ((if decide (word ∈ ig) then dict_get d w else dict_get d w)
                = dict_get d w) as -> by by destruct (decide (word ∈ ig)).
        rewrite Z.add_0_l. done.
Qed.

Lemma document_of_get ig text w :
  dict_get (document_of ig text) w
  = if decide (w ∈ ig) then None
    else if occurrences w (wordfinder_finditer text) =? 0 then None
    else Some (occurrences w (wordfinder_finditer text)).
Proof.
  unfold document_of. rewrite count_words_get. unfold count_in. simpl.
  by rewrite Z.add_0_l.
Qed.

End counting_facts.

(** X3. The mapping that [__count_occurrences] appends for a text gives
    every token that is not in the ignore set the number of times it
    stands among the tokens of the text; an ignored word and a word that
    is no token of the text are no keys. The mappings before it stay. *)
Theorem count_occurrences_counts self text :
  exists d,
    _documents (count_occurrences self text) = _documents self ++ [d]
    /\ _ignorewords (count_occurrences self text) = _ignorewords self
    /\ forall w,
         dict_get d w
         = if decide (w ∈ _ignorewords self) then None
           else if occurrences w (wordfinder_finditer text) =? 0 then None
           else Some (occurrences w (wordfinder_finditer text)).
Proof.
  eexists. split; [reflexivity|]. split; [reflexivity|].
  intros w. apply document_of_get.
Qed.

(** ** What the constructor builds *)

Section layout_facts.

Implicit Types (self : DocumentAnalyser) (d : dict) (w : string).

Lemma process_check_documents self cd :
  _documents (process_check self cd)
  = _documents self ++ map (document_of (_ignorewords self)) (texts_of cd).
Proof.
  destruct cd as [|text|texts]; simpl.
  - by rewrite app_nil_r.
  - done.
  - revert self. induction texts as [|t texts IH]; intros self; simpl.
    + by rewrite app_nil_r.
    + rewrite IH. simpl. by rewrite <- app_assoc.
Qed.

Lemma init_inv cd ign mn mx a :
  init cd ign mn mx = Ok a ->
  exists s, a = process_check s cd
    /\ _documents s = []
    /\ _mincount s = default 1 mn /\ _maxcount s = default 256 mx
    /\ forall w, w ∈ _ignorewords s <->
         exists text, ign = ArgStr text /\ w ∈ wordfinder_finditer text.
Proof.
  unfold init. destruct ign as [|text|texts]; simpl; [| |done];
    intros [= <-]; eexists; (split; [reflexivity|]); simpl;
    do 3 (split; [done|]); intros w.
  - rewrite elem_of_empty. split; [done|]. by intros (text & ? & _).
  - rewrite add_ignore_words, elem_of_empty. split.
    + intros [[]|Hw]. by exists text.
    + intros (text' & [= <-] & Hw). by right.
Qed.

Lemma init_documents cd ign mn mx a :
  init cd ign mn mx = Ok a ->
  _mincount a = default 1 mn /\ _maxcount a = default 256 mx
  /\ _documents a = map (document_of (_ignorewords a)) (texts_of cd)
  /\ forall w, w ∈ _ignorewords a <->
       exists text, ign = ArgStr text /\ w ∈ wordfinder_finditer text.
Proof.
  intros (s & -> & Hdocs & Hmin & Hmax & Hig)%init_inv.
  destruct (process_check_limits s cd) as (-> & -> & ->).
  rewrite process_check_documents, Hdocs. done.
Qed.

End layout_facts.

(** X4. When [ignoredocuments] is no list the constructor returns an
    analyser: its limits are the ones given, or 1 and 256; it holds one
    mapping for each text to check, in the order of the texts, each the
    counts of its own text; and its ignore set holds the tokens of the
    ignore text and nothing else. *)
Theorem init_builds cd ign mn mx :
  (forall texts, ign <> ArgList texts) ->
  exists a, init cd ign mn mx = Ok a
    /\ _mincount a = default 1 mn /\ _maxcount a = default 256 mx
    /\ _documents a = map (document_of (_ignorewords a)) (texts_of cd)
    /\ length (_documents a) = length (texts_of cd)
    /\ forall w, w ∈ _ignorewords a <->
         exists text, ign = ArgStr text /\ w ∈ wordfinder_finditer text.
Proof.
  intros Hign.
  assert (exists a, init cd ign mn mx = Ok a) as [a Ha].
  { unfold init. destruct ign as [|text|texts]; simpl; eauto.
    by destruct (Hign texts). }
  exists a. split; [done|].
  destruct (init_documents _ _ _ _ _ Ha) as (Hmin & Hmax & Hdocs & Hig).
  do 3 (split; [done|]). split; [|done].
  by rewrite Hdocs, length_map.
Qed.

Lemma init_builds_witness :
  (forall texts, ArgStr "fish" <> ArgList texts)
  /\ exists a,
       init (ArgList ["cat dog fish"; "fish"]) (ArgStr "fish") None (Some 9)
         = Ok a
       /\ _mincount a = default 1 None /\ _maxcount a = default 256 (Some 9)
       /\ _documents a
          = map (document_of (_ignorewords a))
                (texts_of (ArgList ["cat dog fish"; "fish"]))
       /\ length (_documents a)
          = length (texts_of (ArgList ["cat dog fish"; "fish"]))
       /\ forall w, w ∈ _ignorewords a <->
            exists text,
              ArgStr "fish" = ArgStr text /\ w ∈ wordfinder_finditer text.
Proof.
  split; [done|].
  apply (init_builds (ArgList ["cat dog fish"; "fish"]) (ArgStr "fish")
                     None (Some 9)).
  done.
Defined.

(** ** The count reported for a word *)

Section reported_facts.

Implicit Types (self : DocumentAnalyser) (d : dict) (w : string).

Lemma option_eq_iff {A : Type} (o1 o2 : option A) :
  (forall v, o1 = Some v <-> o2 = Some v) -> o1 = o2.
Proof.
  intros H. destruct o1 as [v1|]; destruct o2 as [v2|]; try done.
  - symmetry. by apply H.
  - symmetry. by apply H.
  - by apply H.
Qed.

Lemma reported_Some self w v :
  reported self w = Some v <->
  in_every (_documents self) w = true
  /\ v = total_count (_documents self) w
  /\ _mincount self <= v <= _maxcount self.
Proof.
  unfold reported, in_range. cbn [snd].
  destruct (in_every (_documents self) w); simpl.
  - destruct (Z.geb_spec (total_count (_documents self) w) (_mincount self));
      destruct (Z.leb_spec (total_count (_documents self) w) (_maxcount self));
      simpl; split; try done; try (intros [= <-]; repeat split; lia);
      try (intros (_ & -> & ?); first [done | lia]).
  - split; [done|]. by intros [? _].
Qed.

(** Whatever the number of documents, the result is the mapping of the
    words to the counts reported for them. *)
Lemma find_duplicates_reported self r w :
  well_formed self -> find_duplicates self = Some r ->
  dict_get r w = reported self w.
Proof.
  intros Hwf Hr. apply option_eq_iff. intros v. rewrite reported_Some.
  destruct (_documents self) as [|d0 [|d1 rest]] eqn:Hdocs.
  - unfold find_duplicates in Hr. by rewrite Hdocs in Hr.
  - destruct (find_duplicates_one_get self d0 Hwf Hdocs)
      as (r' & Hr' & _ & _ & Hget).
    rewrite Hr in Hr'. injection Hr' as <-. rewrite Hget.
    unfold in_every, total_count, count_in, dict_contains. simpl.
    destruct (dict_get d0 w) as [n|]; simpl.
    + rewrite Z.add_0_r. split.
      * intros [[= ->] ?]. done.
      * intros (_ & -> & ?). done.
    + split; [by intros [? _]|by intros [? _]].
  - destruct (find_duplicates_many_get self d0 d1 rest Hwf Hdocs)
      as (r' & Hr' & _ & Hget).
    rewrite Hr in Hr'. injection Hr' as <-. rewrite Hget.
    change (in_every (d0 :: d1 :: rest) w)
      with (dict_contains d0 w && in_every (d1 :: rest) w).
    rewrite andb_true_iff. tauto.
Qed.

Lemma in_every_perm (docs1 docs2 : list dict) w :
  docs1 ≡ₚ docs2 -> in_every docs1 w = in_every docs2 w.
Proof.
  unfold in_every. induction 1 as [|d l1 l2 _ IH|d1 d2 l|l1 l2 l3 _ IH1 _ IH2];
    simpl; [done|by rewrite IH| |congruence].
  by destruct (dict_contains d1 w), (dict_contains d2 w).
Qed.

Lemma total_count_perm (docs1 docs2 : list dict) w :
  docs1 ≡ₚ docs2 -> total_count docs1 w = total_count docs2 w.
Proof.
  unfold total_count. induction 1 as [|d l1 l2 _ IH|d1 d2 l|l1 l2 l3 _ IH1 _ IH2];
    simpl; [done|by rewrite IH|lia|congruence].
Qed.

Lemma in_every_total_ext {A : Type} (f g : A -> dict) (l : list A) w :
  (forall t, dict_get (f t) w = dict_get (g t) w) ->
  in_every (map f l) w = in_every (map g l) w
  /\ total_count (map f l) w = total_count (map g l) w.
Proof.
  intros Hfg. unfold in_every, total_count, count_in, dict_contains.
  induction l as [|t l [IH1 IH2]]; simpl; [done|].
  by rewrite Hfg, IH1, IH2.
Qed.

Lemma dict_all_None d : (forall w, dict_get d w = None) -> d = [].
Proof.
  destruct d as [|[k v] d]; [done|]. intros H. specialize (H k).
  simpl in H. by rewrite String.eqb_refl in H.
Qed.

Lemma in_every_empty_document (docs : list dict) w :
  [] ∈ docs -> in_every docs w = false.
Proof.
  unfold in_every. induction docs as [|d docs IH].
  - intros H. by apply elem_of_nil in H.
  - intros [<-|H]%elem_of_cons; simpl; [done|].
    rewrite (IH H). apply andb_false_r.
Qed.

Lemma total_count_bound (docs : list dict) w :
  Forall (fun d => forall v, dict_get d w = Some v -> 1 <= v) docs ->
  in_every docs w = true ->
  Z.of_nat (length docs) <= total_count docs w.
Proof.
  unfold in_every, total_count, count_in, dict_contains.
  induction 1 as [|d docs Hd _ IH]; simpl; [done|].
  destruct (dict_get d w) as [v|]; [|done]. simpl. intros Hall.
  specialize (IH Hall). specialize (Hd v eq_refl). lia.
Qed.

End reported_facts.

(** ** When there is a result *)

Lemma find_duplicates_None self :
  find_duplicates self = None <-> _documents self = [].
Proof.
  unfold find_duplicates.
  destruct (_documents self) as [|d0 [|d1 rest]]; simpl; split; done.
Qed.

Lemma find_duplicates_Some self :
  _documents self <> [] -> exists r, find_duplicates self = Some r.
Proof.
  unfold find_duplicates.
  destruct (_documents self) as [|d0 [|d1 rest]]; simpl; [done| |]; eauto.
Qed.

(** X5. The order of the documents does not change what is reported:
    two analysers built from the same texts in two orders, with the same
    ignore text and limits, either both have no result or give every word
    the same count (only the order of the entries can differ). *)
Theorem find_duplicates_reordered texts1 texts2 ign mn mx a1 a2 :
  texts1 ≡ₚ texts2 ->
  init (ArgList texts1) ign mn mx = Ok a1 ->
  init (ArgList texts2) ign mn mx = Ok a2 ->
  (find_duplicates a1 = None <-> find_duplicates a2 = None)
  /\ forall r1 r2,
       find_duplicates a1 = Some r1 -> find_duplicates a2 = Some r2 ->
       forall w, dict_get r1 w = dict_get r2 w.
Proof.
  intros Hperm H1 H2.
  apply init_well_formed in H1 as Hwf1. apply init_well_formed in H2 as Hwf2.
  apply init_inv in H1 as (s1 & -> & Hd1 & Hmin1 & Hmax1 & Hig1).
  apply init_inv in H2 as (s2 & -> & Hd2 & Hmin2 & Hmax2 & Hig2).
  assert (_ignorewords s1 = _ignorewords s2) as Hig.
  { apply set_eq. intros w. by rewrite Hig1, Hig2. }
  assert (_documents (process_check s1 (ArgList texts1))
          ≡ₚ _documents (process_check s2 (ArgList texts2))) as Hdocs.
  { rewrite !process_check_documents, Hd1, Hd2, Hig. simpl.
    by apply Permutation_map. }
  split.
  - rewrite !find_duplicates_None. split; intros Hnil; rewrite Hnil in Hdocs.
    + by apply Permutation_nil in Hdocs.
    + symmetry in Hdocs. by apply Permutation_nil in Hdocs.
  - intros r1 r2 Hr1 Hr2 w.
    rewrite (find_duplicates_reported _ _ w Hwf1 Hr1).
    rewrite (find_duplicates_reported _ _ w Hwf2 Hr2).
    unfold reported, in_range. cbn [snd].
    rewrite (in_every_perm _ _ w Hdocs), (total_count_perm _ _ w Hdocs).
    destruct (process_check_limits s1 (ArgList texts1)) as (-> & -> & _).
    destruct (process_check_limits s2 (ArgList texts2)) as (-> & -> & _).
    by rewrite Hmin1, Hmin2, Hmax1, Hmax2.
Qed.

Lemma find_duplicates_reordered_witness :
  exists a1 a2,
    ["dog cat cat emu"; "emu dog cat"] ≡ₚ ["emu dog cat"; "dog cat cat emu"]
    /\ init (ArgList ["dog cat cat emu"; "emu dog cat"]) ArgNone None None
       = Ok a1
    /\ init (ArgList ["emu dog cat"; "dog cat cat emu"]) ArgNone None None
       = Ok a2
    /\ find_duplicates a1 = Some [("dog", 2); ("emu", 2); ("cat", 3)]
    /\ find_duplicates a2 = Some [("emu", 2); ("dog", 2); ("cat", 3)]
    /\ (find_duplicates a1 = None <-> find_duplicates a2 = None)
    /\ forall r1 r2,
         find_duplicates a1 = Some r1 -> find_duplicates a2 = Some r2 ->
         forall w, dict_get r1 w = dict_get r2 w.
Proof.
  eexists. eexists. split; [apply perm_swap|].
  split; [reflexivity|]. split; [reflexivity|].
  split; [vm_compute; reflexivity|]. split; [vm_compute; reflexivity|].
  apply (find_duplicates_reordered
           ["dog cat cat emu"; "emu dog cat"]
           ["emu dog cat"; "dog cat cat emu"] ArgNone None None).
  - apply perm_swap.
  - reflexivity.
  - reflexivity.
Defined.

(** X6. Every count in the result of an analyser built by the constructor
    is at least the number of its documents: a reported word stands at
    least once in each of them. *)
Theorem find_duplicates_count_bound cd ign mn mx a r w v :
  init cd ign mn mx = Ok a ->
  find_duplicates a = Some r ->
  dict_get r w = Some v ->
  Z.of_nat (length (_documents a)) <= v.
Proof.
  intros Hinit Hr Hget.
  apply init_well_formed in Hinit as Hwf.
  rewrite (find_duplicates_reported _ _ w Hwf Hr) in Hget.
  apply reported_Some in Hget as (Hall & -> & _).
  apply total_count_bound; [|done].
  destruct (init_documents _ _ _ _ _ Hinit) as (_ & _ & -> & _).
  apply List.Forall_forall. intros d (text & <- & _)%in_map_iff n.
  rewrite document_of_get.
  destruct (decide (w ∈ _ignorewords a)); [done|].
  pose proof (occurrences_nonneg w (wordfinder_finditer text)).
  destruct (Z.eqb_spec (occurrences w (wordfinder_finditer text)) 0);
    [done|]. intros [= <-]. lia.
Qed.

Lemma find_duplicates_count_bound_witness :
  exists a,
    init (ArgList ["cat dog dog"; "dog cat cat"]) ArgNone None None = Ok a
    /\ find_duplicates a = Some [("cat", 3); ("dog", 3)]
    /\ dict_get [("cat", 3); ("dog", 3)] "dog" = Some 3
    /\ Z.of_nat (length (_documents a)) <= 3.
Proof.
  eexists. split; [reflexivity|]. split; [vm_compute; reflexivity|].
  split; [reflexivity|].
  apply (find_duplicates_count_bound
           (ArgList ["cat dog dog"; "dog cat cat"]) ArgNone None None
           _ [("cat", 3); ("dog", 3)] "dog" 3).
  - reflexivity.
  - vm_compute. reflexivity.
  - reflexivity.
Defined.

(** X7. One document without a key empties the result: when the mapping
    of some document of the analyser is empty (a text without a token
    that counts, such as the empty text of a missing file),
    [find_duplicates] returns the empty mapping. *)
Theorem find_duplicates_empty_document cd ign mn mx a :
  init cd ign mn mx = Ok a ->
  [] ∈ _documents a ->
  find_duplicates a = Some [].
Proof.
  intros Hwf%init_well_formed Hin.
  destruct (find_duplicates_Some a) as [r Hr].
  { intros Hnil. rewrite Hnil in Hin. by apply elem_of_nil in Hin. }
  rewrite Hr. f_equal. apply dict_all_None. intros w.
  rewrite (find_duplicates_reported _ _ w Hwf Hr). unfold reported.
  by rewrite in_every_empty_document.
Qed.

Lemma find_duplicates_empty_document_witness :
  exists a,
    init (ArgList ["cat dog dog"; ""; "dog cat"]) ArgNone None None = Ok a
    /\ [] ∈ _documents a
    /\ find_duplicates a = Some [].
Proof.
  eexists. split; [reflexivity|].
  assert ([] ∈ _documents
            (process_check
               {| _mincount := default 1 None; _maxcount := default 256 None;
                  _documents := []; _ignorewords := ∅ |}
               (ArgList ["cat dog dog"; ""; "dog cat"]))) as Hin.
  { apply list_elem_of_In. vm_compute. tauto. }
  split; [exact Hin|].
  apply (find_duplicates_empty_document
           (ArgList ["cat dog dog"; ""; "dog cat"]) ArgNone None None).
  - reflexivity.
  - exact Hin.
Defined.

(** X8. An ignore text takes the ignored words out of the result and
    changes nothing else: against the analyser built from the same texts
    and limits without ignore text, a token of the ignore text is no key
    of the result, and every other word has the same count or is absent
    in both. *)
Theorem find_duplicates_ignore_effect cd text mn mx a1 a0 r1 r0 :
  init cd (ArgStr text) mn mx = Ok a1 ->
  init cd ArgNone mn mx = Ok a0 ->
  find_duplicates a1 = Some r1 ->
  find_duplicates a0 = Some r0 ->
  forall w,
    dict_get r1 w
    = if decide (w ∈ wordfinder_finditer text) then None else dict_get r0 w.
Proof.
  intros H1 H0 Hr1 Hr0 w.
  apply init_well_formed in H1 as Hwf1. apply init_well_formed in H0 as Hwf0.
  rewrite (find_duplicates_reported _ _ w Hwf1 Hr1).
  rewrite (find_duplicates_reported _ _ w Hwf0 Hr0).
  destruct (init_documents _ _ _ _ _ H1) as (Hmin1 & Hmax1 & Hd1 & Hig1).
  destruct (init_documents _ _ _ _ _ H0) as (Hmin0 & Hmax0 & Hd0 & Hig0).
  assert (texts_of cd <> []) as Hne.
  { intros Hnil. rewrite Hnil in Hd1. simpl in Hd1.
    unfold find_duplicates in Hr1. by rewrite Hd1 in Hr1. }
  assert (w ∉ _ignorewords a0) as Hw0.
  { rewrite Hig0. by intros (t & ? & _). }
  unfold reported, in_range. cbn [snd].
  rewrite Hd1, Hd0, Hmin1, Hmax1, Hmin0, Hmax0.
  destruct (decide (w ∈ wordfinder_finditer text)) as [Hw|Hw].
  - destruct (texts_of cd) as [|t l]; [done|]. simpl.
    unfold in_every at 1. cbn [forallb]. unfold dict_contains at 1.
    rewrite document_of_get.
    destruct (decide (w ∈ _ignorewords a1)) as [|Hn]; [done|].
    destruct Hn. apply Hig1. by exists text.
  - assert (w ∉ _ignorewords a1) as Hw1.
    { rewrite Hig1. by intros (t & [= <-] & ?). }
    destruct (in_every_total_ext (document_of (_ignorewords a1))
                (document_of (_ignorewords a0)) (texts_of cd) w) as [-> ->];
      [|done].
    intros t. rewrite !document_of_get.
    destruct (decide (w ∈ _ignorewords a1)); [done|].
    destruct (decide (w ∈ _ignorewords a0)); done.
Qed.

Lemma find_duplicates_ignore_effect_witness :
  exists a1 a0,
    init (ArgList ["cat dog fish"; "fish cat"]) (ArgStr "fish") None None
      = Ok a1
    /\ init (ArgList ["cat dog fish"; "fish cat"]) ArgNone None None = Ok a0
    /\ find_duplicates a1 = Some [("cat", 2)]
    /\ find_duplicates a0 = Some [("cat", 2); ("fish", 2)]
    /\ forall w,
         dict_get [("cat", 2)] w
         = if decide (w ∈ wordfinder_finditer "fish") then None
           else dict_get [("cat", 2); ("fish", 2)] w.
Proof.
  eexists. eexists. split; [reflexivity|]. split; [reflexivity|].
  split; [vm_compute; reflexivity|]. split; [vm_compute; reflexivity|].
  eapply (find_duplicates_ignore_effect
            (ArgList ["cat dog fish"; "fish cat"]) "fish" None None).
  - reflexivity.
  - reflexivity.
  - vm_compute. reflexivity.
  - vm_compute. reflexivity.
Defined.

(** ** The keys of a document *)

Lemma count_words_keys (ig : gset string) (words : list string) (d : dict) :
  exists new, keys (fold_left (count_word ig) words d) = keys d ++ new
    /\ new `sublist_of` words.
Proof.
  revert d. induction words as [|word words IH]; intros d; simpl.
  - exists []. by rewrite app_nil_r.
  - destruct (IH (count_word ig d word)) as (new & -> & Hsub).
    unfold count_word. destruct (decide (word ∈ ig)).
    { exists new. split; [done|]. by apply sublist_cons. }
    destruct (dict_get d word) as [m|] eqn:E;
      rewrite keys_dict_set; unfold dict_contains; rewrite E.
    + exists new. split; [done|]. by apply sublist_cons.
    + exists (word :: new). rewrite <- app_assoc. split; [done|].
      by apply sublist_skip.
Qed.

Lemma document_of_keys_iff (ig : gset string) (text : string) w :
  w ∈ keys (document_of ig text) <-> w ∈ wordfinder_finditer text /\ w ∉ ig.
Proof.
  rewrite <- dict_contains_keys. unfold dict_contains.
  rewrite document_of_get.
  destruct (decide (w ∈ ig)) as [Hw|Hw]; [by split; [|intros [_ ?]]|].
  destruct (Z.eqb_spec (occurrences w (wordfinder_finditer text)) 0)
    as [Hz|Hz].
  - apply occurrences_zero in Hz. split; [done|]. by intros [? _].
  - rewrite occurrences_zero in Hz. split; [intros _|done].
    split; [|done].
    by destruct (decide (w ∈ wordfinder_finditer text)).
Qed.

(** X9. The keys of the mapping counted for a text are distinct, they are
    the tokens of the text that are not in the ignore set, and they stand
    in an order in which they stand in the text. *)
Theorem document_of_keys (ig : gset string) (text : string) :
  NoDup (keys (document_of ig text))
  /\ (forall w, w ∈ keys (document_of ig text) <->
        w ∈ wordfinder_finditer text /\ w ∉ ig)
  /\ keys (document_of ig text) `sublist_of` wordfinder_finditer text.
Proof.
  split; [|split].
  - by apply (count_words_counted ig (wordfinder_finditer text) []),
             counted_nil.
  - intros w. apply document_of_keys_iff.
  - destruct (count_words_keys ig (wordfinder_finditer text) [])
      as (new & Hkeys & Hsub).
    unfold document_of. by rewrite Hkeys.
Qed.

(** ** [load_file] over a list of files *)




(** ** [save_results] *)

Lemma save_results_Some self rows :
  snd (save_results self) = Some rows ->
  fst (save_results self) = []
  /\ exists r, find_duplicates self = Some r
       /\ rows = ["Word"; "Count"] :: map csv_row r
       /\ display_results self = map format_entry r.
Proof.
  unfold save_results, display_results, items.
  destruct (find_duplicates self) as [r|]; simpl; [|done].
  intros [= <-]. split; [done|]. by exists r.
Qed.

(** X11. [save_results] writes no file exactly when the analyser holds no
    document, and then prints one line. When it writes, it prints
    nothing, the file starts with the row [Word], [Count], and after it
    come the entries of [find_duplicates] in their order, the same
    tokens and counts that [display_results] prints line by line. *)
Theorem save_results_rows self :
  (snd (save_results self) = None <-> _documents self = [])
  /\ (snd (save_results self) = None ->
      fst (save_results self) = ["No results to write to results.csv"])
  /\ (forall rows, snd (save_results self) = Some rows ->
        fst (save_results self) = []
        /\ exists r, find_duplicates self = Some r
             /\ rows = ["Word"; "Count"] :: map csv_row r
             /\ display_results self = map format_entry r
             /\ length rows = S (length (display_results self))).
Proof.
  split; [|split].
  - rewrite <- find_duplicates_None. unfold save_results.
    by destruct (find_duplicates self).
  - unfold save_results. by destruct (find_duplicates self).
  - intros rows Hrows.
    destruct (save_results_Some self rows Hrows) as (Hout & r & Hr & -> & Hd).
    split; [done|]. exists r. repeat (split; [done|]).
    rewrite Hd. simpl. by rewrite !length_map.
Qed.

(** ** Fields that need no quoting *)

Section csv_facts.

Lemma body_char_plain (c : ascii) :
  Re.body_char c = true -> csv_special c = false.
Proof.
  destruct c as [[] [] [] [] [] [] [] []]; vm_compute; done.
Qed.

Lemma ascii_letter_body (c : ascii) :
  Re.ascii_letter c = true -> Re.body_char c = true.
Proof.
  destruct c as [[] [] [] [] [] [] [] []]; vm_compute; done.
Qed.

Lemma token_plain (t : string) :
  is_token t = true ->
  Forall (fun c => csv_special c = false) (list_ascii_of_string t).
Proof.
  unfold is_token. destruct (list_ascii_of_string t) as [|c body]; [done|].
  intros H. apply andb_true_iff in H as [H Hbody].
  apply andb_true_iff in H as [H _]. apply andb_true_iff in H as [Hc _].
  constructor; [by apply body_char_plain, ascii_letter_body|].
  apply List.Forall_forall. intros x Hx. apply body_char_plain.
  rewrite forallb_forall in Hbody. by apply Hbody.
Qed.

Lemma string_of_uint_plain (d : Decimal.uint) :
  Forall (fun c => csv_special c = false)
         (list_ascii_of_string (NilEmpty.string_of_uint d)).
Proof. induction d; simpl; by constructor. Qed.

Lemma str_int_plain (v : Z) :
  Forall (fun c => csv_special c = false) (list_ascii_of_string (str_int v)).
Proof.
  unfold str_int, NilZero.string_of_int, NilZero.string_of_uint.
  destruct (Z.to_int v) as [d|d].
  - destruct d; try apply string_of_uint_plain. by repeat constructor.
  - simpl. constructor; [done|].
    destruct d; try apply string_of_uint_plain. by repeat constructor.
Qed.

(** The keys of the result are keys of the first document. *)
Lemma find_duplicates_keys self r w :
  well_formed self -> find_duplicates self = Some r -> w ∈ keys r ->
  exists d0 rest, _documents self = d0 :: rest /\ w ∈ keys d0.
Proof.
  intros Hwf Hr Hw.
  destruct (_documents self) as [|d0 [|d1 rest]] eqn:Hdocs.
  - unfold find_duplicates in Hr. by rewrite Hdocs in Hr.
  - rewrite (find_duplicates_one self d0 Hwf Hdocs) in Hr.
    injection Hr as <-. exists d0, []. split; [done|].
    unfold keys in *. apply list_elem_of_fmap in Hw as (e & -> & He).
    apply elem_of_List_filter in He as [_ He].
    rewrite sorted_by_count_perm in He. by apply list_elem_of_fmap_2.
  - rewrite (find_duplicates_many self d0 d1 rest Hwf Hdocs) in Hr.
    injection Hr as <-. exists d0, (d1 :: rest). split; [done|].
    unfold keys in Hw. rewrite sorted_by_count_perm in Hw.
    fold (keys (summed (d1 :: rest)
                  <$> List.filter (qualifies self (d1 :: rest)) d0)) in Hw.
    rewrite keys_summed in Hw. unfold keys in *.
    apply list_elem_of_fmap in Hw as (e & -> & He).
    apply elem_of_List_filter in He as [_ He]. by apply list_elem_of_fmap_2.
Qed.

End csv_facts.

(** X12. No field of the rows that [save_results] writes for an analyser
    built by the constructor holds a comma, a double quote, a carriage
    return or a line feed: [csv.writer] has nothing to quote, and each
    row is the token, a comma and the count. *)
Theorem save_results_plain_fields cd ign mn mx a rows row field c :
  init cd ign mn mx = Ok a ->
  snd (save_results a) = Some rows ->
  row ∈ rows -> field ∈ row -> c ∈ list_ascii_of_string field ->
  csv_special c = false.
Proof.
  intros Hinit Hrows Hrow Hfield Hc.
  apply init_well_formed in Hinit as Hwf.
  destruct (save_results_Some a rows Hrows) as (_ & r & Hr & -> & _).
  assert (Forall (fun c => csv_special c = false) (list_ascii_of_string field))
    as Hplain; [|by rewrite List.Forall_forall in Hplain;
                   apply Hplain, list_elem_of_In].
  clear c Hc.
  apply elem_of_cons in Hrow as [->|Hrow].
  { apply elem_of_cons in Hfield as [->|Hfield]; [by repeat constructor|].
    apply list_elem_of_singleton in Hfield as ->. by repeat constructor. }
  apply list_elem_of_In, in_map_iff in Hrow as ([w v] & <- & Hin).
  unfold csv_row in Hfield. cbn [fst snd] in Hfield.
  apply elem_of_cons in Hfield as [->|Hfield];
    [|apply list_elem_of_singleton in Hfield as ->; apply str_int_plain].
  apply token_plain.
  assert (w ∈ keys r) as Hw.
  { unfold keys. apply list_elem_of_fmap. exists (w, v).
    split; [done|]. by apply list_elem_of_In. }
  destruct (find_duplicates_keys a r w Hwf Hr Hw) as (d0 & rest & Hdocs & Hk).
  destruct (init_documents _ _ _ _ _ Hinit) as (_ & _ & Hmap & _).
  rewrite Hmap in Hdocs.
  destruct (texts_of cd) as [|t texts]; [done|]. simpl in Hdocs.
  injection Hdocs as <- _.
  apply document_of_keys_iff in Hk as [Htok _].
  by apply scan_tokens in Htok as [? _].
Qed.

Lemma save_results_plain_fields_witness :
  exists a rows,
    init (ArgList ["cat dog dog"; "dog cat cat"]) ArgNone None None = Ok a
    /\ snd (save_results a) = Some rows
    /\ rows = [["Word"; "Count"]; ["cat"; "3"]; ["dog"; "3"]]
    /\ ["cat"; "3"] ∈ rows
    /\ "cat" ∈ ["cat"; "3"]
    /\ "a"%char ∈ list_ascii_of_string "cat"
    /\ csv_special "a" = false.
Proof.
  assert (forall (A : Type) (x : A) l, In x l -> x ∈ l) as Hin
    by (intros; by apply list_elem_of_In).
  eexists. eexists. split; [reflexivity|].
  split; [vm_compute; reflexivity|]. split; [reflexivity|].
  split; [apply Hin; simpl; tauto|]. split; [apply Hin; simpl; tauto|].
  split; [apply Hin; simpl; tauto|].
  eapply (save_results_plain_fields
            (ArgList ["cat dog dog"; "dog cat cat"]) ArgNone None None
            _ _ ["cat"; "3"] "cat" "a").
  - reflexivity.
  - vm_compute. reflexivity.
  - apply Hin. simpl. tauto.
  - apply Hin. simpl. tauto.
  - apply Hin. simpl. tauto.
Defined.

(** ** [main] *)




(** ** One rule for any number of documents *)

(** X14. The branch of [find_duplicates] for one document and its loop
    for several follow one rule: in the result of an analyser built by
    the constructor a word has a count exactly when it is a key of every
    document and the sum of its counts over the documents lies within
    the limits, and that count is the sum. *)
Theorem find_duplicates_one_rule cd ign mn mx a r :
  init cd ign mn mx = Ok a ->
  find_duplicates a = Some r ->
  forall w v,
    dict_get r w = Some v <->
    in_every (_documents a) w = true
    /\ v = total_count (_documents a) w
    /\ _mincount a <= v <= _maxcount a.
Proof.
  intros Hwf%init_well_formed Hr w v.
  rewrite (find_duplicates_reported a r w Hwf Hr). apply reported_Some.
Qed.

Lemma find_duplicates_one_rule_witness :
  exists a r,
    init (ArgStr "cat dog dog emu emu emu") ArgNone (Some 2) (Some 3) = Ok a
    /\ find_duplicates a = Some r
    /\ r = [("dog", 2); ("emu", 3)]
    /\ forall w v,
         dict_get r w = Some v <->
         in_every (_documents a) w = true
         /\ v = total_count (_documents a) w
         /\ _mincount a <= v <= _maxcount a.
Proof.
  eexists. eexists. split; [reflexivity|]. split; [vm_compute; reflexivity|].
  split; [reflexivity|].
  apply (find_duplicates_one_rule
           (ArgStr "cat dog dog emu emu emu") ArgNone (Some 2) (Some 3)).
  - reflexivity.
  - vm_compute. reflexivity.
Defined.

(** X15. Wider limits keep every entry: when two analysers are built from
    the same texts and ignore text, and the limits of the second contain
    the limits of the first, every word with a count in the result of the
    first has the same count in the result of the second. *)
Theorem find_duplicates_wider_limits cd ign mn mx mn' mx' a a' r r' w v :
  init cd ign (Some mn) (Some mx) = Ok a ->
  init cd ign (Some mn') (Some mx') = Ok a' ->
  mn' <= mn -> mx <= mx' ->
  find_duplicates a = Some r ->
  find_duplicates a' = Some r' ->
  dict_get r w = Some v ->
  dict_get r' w = Some v.
Proof.
  intros H H' Hmn Hmx Hr Hr' Hget.
  apply init_well_formed in H as Hwf. apply init_well_formed in H' as Hwf'.
  rewrite (find_duplicates_reported a r w Hwf Hr) in Hget.
  rewrite (find_duplicates_reported a' r' w Hwf' Hr').
  apply reported_Some in Hget as (Hall & -> & Hrange).
  apply reported_Some.
  apply init_inv in H as (s & -> & Hd & Hmin & Hmax & Hig).
  apply init_inv in H' as (s' & -> & Hd' & Hmin' & Hmax' & Hig').
  assert (_ignorewords s = _ignorewords s') as Heq.
  { apply set_eq. intros x. by rewrite Hig, Hig'. }
  destruct (process_check_limits s cd) as (Hl1 & Hl2 & _).
  destruct (process_check_limits s' cd) as (Hl1' & Hl2' & _).
  rewrite Hl1, Hl2, Hmin, Hmax in Hrange. rewrite Hl1', Hl2', Hmin', Hmax'.
  rewrite process_check_documents, Hd, Heq in Hall, Hrange.
  rewrite !process_check_documents, Hd, Hd', Heq.
  simpl in *. split; [done|]. split; [done|]. lia.
Qed.

Lemma find_duplicates_wider_limits_witness :
  exists a a',
    init (ArgList ["cat dog dog"; "dog cat"]) ArgNone (Some 3) (Some 3) = Ok a
    /\ init (ArgList ["cat dog dog"; "dog cat"]) ArgNone (Some 1) (Some 9)
       = Ok a'
    /\ 1 <= 3 /\ 3 <= 9
    /\ find_duplicates a = Some [("dog", 3)]
    /\ find_duplicates a' = Some [("cat", 2); ("dog", 3)]
    /\ dict_get [("dog", 3)] "dog" = Some 3
    /\ dict_get [("cat", 2); ("dog", 3)] "dog" = Some 3.
Proof.
  eexists. eexists. split; [reflexivity|]. split; [reflexivity|].
  split; [lia|]. split; [lia|].
  split; [vm_compute; reflexivity|]. split; [vm_compute; reflexivity|].
  split; [reflexivity|].
  eapply (find_duplicates_wider_limits
            (ArgList ["cat dog dog"; "dog cat"]) ArgNone 3 3 1 9
            _ _ [("dog", 3)] [("cat", 2); ("dog", 3)] "dog" 3).
  - reflexivity.
  - reflexivity.
  - lia.
  - lia.
  - vm_compute. reflexivity.
  - vm_compute. reflexivity.
  - reflexivity.
Defined.
